(** * BubbleOS Lite: the [mkfile] handler, the error catalogue and the dispatcher

    A shallow embedding of [src/classes/Errors.js], [src/commands/mkfile.js]
    and the dispatcher [intCmds], with the properties of the specification
    stated over it.

    Conventions of the embedding.
    - JavaScript strings are [string]; the text is taken to be ASCII, and the
      [chalk] styling functions are the identity on the text.
    - The handlers are statements over an explicit [World]: the file system,
      the answers the terminal will give, everything printed so far and the
      command history.  A statement ends in a [Completion], as in the
      language: it falls through, returns from the function, throws, never
      comes back from a blocking read, or ends the process.
    - The [Verbose] class only prints diagnostics in verbose mode and is not
      part of the sources; its calls are left out. *)

From Stdlib Require Import String Ascii ZArith List Bool Lia.
From stdpp Require Import base gmap strings list pretty.
Import ListNotations.

Local Open Scope string_scope.
Local Open Scope Z_scope.

(** ** Strings *)

(** The line feed, written [\n] in the sources. *)
Definition nl : string := String (ascii_of_nat 10) EmptyString.

Definition upper_ascii (c : ascii) : ascii :=
  let n := nat_of_ascii c in
  if ((97 <=? n) && (n <=? 122))%nat then ascii_of_nat (n - 32) else c.

(** [String.prototype.toUpperCase] on ASCII text, where the method maps the
    letters [a] to [z] to [A] to [Z] and nothing else.  Beyond ASCII the
    method maps more characters, two of them to ASCII letters (U+017F to [S]
    and U+0131 to [I]); on text that is [isASCII] this definition is the
    method. *)
Fixpoint toUpperCase (s : string) : string :=
  match s with
  | EmptyString => EmptyString
  | String c s' => String (upper_ascii c) (toUpperCase s')
  end.

(** The text is ASCII: every character is below 128. *)
Definition isASCII (s : string) : bool :=
  forallb (λ c, (nat_of_ascii c <? 128)%nat) (list_ascii_of_string s).

(** [String.prototype.startsWith]: the characters of [p] are compared one by
    one with those [s] begins with. *)
Fixpoint startsWith (s p : string) {struct p} : bool :=
  match p with
  | EmptyString => true
  | String a p' =>
      match s with
      | EmptyString => false
      | String b s' => Ascii.eqb a b && startsWith s' p'
      end
  end.

(** [Array.prototype.join]. *)
Definition join (sep : string) (a : list string) : string := String.concat sep a.

(** [Array.prototype.includes] on an array of strings. *)
Definition includes (a : list string) (x : string) : bool :=
  existsb (String.eqb x) a.

(** [contents[i] = v].  Inside the array the slot is replaced; past its end
    JavaScript grows the array, the slots in between being holes, which
    [join] prints as empty strings. *)
Definition array_set (i : nat) (v : string) (a : list string) : list string :=
  if decide (i < length a)%nat then <[i:=v]> a
  else a ++ replicate (i - length a) "" ++ [v].

(** ** Exceptions *)

(** What a [catch] clause can receive here: an error of the platform, which
    carries a [code], or the [ReferenceError] raised by reading an
    identifier that is not declared, which carries none. *)
Inductive Exn : Type :=
| SystemError (code : string)
| ReferenceError (name : string).

(** [err.code]; [None] stands for [undefined]. *)
Definition code (err : Exn) : option string :=
  match err with
  | SystemError c => Some c
  | ReferenceError _ => None
  end.

(** [err.code === c] *)
Definition code_is (err : Exn) (c : string) : bool :=
  match code err with
  | Some c' => String.eqb c' c
  | None => false
  end.

(** ** The error catalogue ([src/classes/Errors.js]) *)

Module Errors.

(** One constructor per static method of the class, with its parameters. *)
Inductive ErrorKind : Type :=
| unrecognizedCommand (command : string)
| enterParameter (type example : string)
| doesNotExist (type variable : string)
| noPermissions (todo variable : string)
| inUse (type variable : string)
| alreadyExists (type variable : string)
| expectedFile (variable : string)
| expectedDir (variable : string)
| invalidOS (os : string)
| invalidEncoding (encoding : string)
| invalidExtension (extension : string)
| invalidCharacters (type supposedTo notContain variable : string)
| pathTooLong (path : string)
| dirToNonDir
| invalidUNCPath
| unknown (toDo variable : string).

(** The constant [CODE] of each method. *)
Definition CODE (k : ErrorKind) : Z :=
  match k with
  | unrecognizedCommand _ => 1
  | enterParameter _ _ => 2
  | doesNotExist _ _ => 3
  | noPermissions _ _ => 4
  | inUse _ _ => 5
  | alreadyExists _ _ => 6
  | expectedFile _ => 7
  | expectedDir _ => 8
  | invalidOS _ => 9
  | invalidEncoding _ => 10
  | invalidExtension _ => 11
  | invalidCharacters _ _ _ _ => 12
  | pathTooLong _ => 13
  | dirToNonDir => 14
  | invalidUNCPath => 15
  | unknown _ _ => 16
  end.

(** The constant [MESSAGE] of each method.  [GLOBAL_NAME] comes from
    [variables/constants], which is not part of the sources. *)
Definition MESSAGE (GLOBAL_NAME : string) (k : ErrorKind) : string :=
  match k with
  | unrecognizedCommand command =>
      "The command, '" ++ command
      ++ "', is unrecognized. Type 'help' for a list of available commands."
  | enterParameter type example =>
      "You must enter " ++ type ++ ", for example, like so: '" ++ example
      ++ "'. (NO_PARAMS_ENTERED)"
  | doesNotExist type variable =>
      "The " ++ type ++ ", '" ++ variable ++ "', does not exist. (NON_EXISTENT)"
  | noPermissions todo variable =>
      "Invalid permissions to " ++ todo ++ " '" ++ variable
      ++ "'. You need elevated privileges. (INVALID_PERMS)"
  | inUse type variable =>
      "The " ++ type ++ ", '" ++ variable ++ "', is currently being used. (PATH_BUSY)"
  | alreadyExists type variable =>
      "The " ++ type ++ ", '" ++ variable ++ "', already exists. (PATH_EXISTS)"
  | expectedFile variable =>
      "Expected a file, but got a directory ('" ++ variable ++ "') instead. (PATH_IS_DIR)"
  | expectedDir variable =>
      "Expected a directory, but got a file ('" ++ variable
      ++ "') instead. (PATH_IS_NOT_DIR)"
  | invalidOS os => "This command can only run on " ++ os ++ ". (INVALID_OS)"
  | invalidEncoding encoding =>
      "This command can only read " ++ encoding ++ " files. (INVALID_ENCODING)"
  | invalidExtension extension =>
      "Only files ending with the '" ++ extension
      ++ "' extension can be used. (INVALID_EXTENSION)"
  | invalidCharacters type supposedTo notContain variable =>
      "The " ++ type ++ " can only contain " ++ supposedTo ++ " and not contain "
      ++ notContain ++ " (received '" ++ variable ++ "'). (INVALID_CHARS)"
  | pathTooLong path =>
      "The path ('" ++ path
      ++ "') is too long. Please choose a shorter path. (PATH_TOO_LONG)"
  | dirToNonDir =>
      "Cannot overwrite a directory with a non-directory. (COPY_DIR_TO_NON_DIR)"
  | invalidUNCPath =>
      "UNC paths are currently unsupported by " ++ GLOBAL_NAME ++ ". (INVALID_UNC_PATH)"
  | unknown toDo variable =>
      GLOBAL_NAME ++ " does not know how to " ++ toDo ++ " '" ++ variable
      ++ "'. (UNKNOWN)"
  end.

(** The line [_interpretError] hands to [console.log]. *)
Definition _interpretError (code : Z) (message : string) : string :=
  "[" ++ pretty code ++ "] " ++ message ++ nl.

Definition render (GLOBAL_NAME : string) (k : ErrorKind) : string :=
  _interpretError (CODE k) (MESSAGE GLOBAL_NAME k).

End Errors.

Export Errors.

(** ** The world a handler runs in *)

(** The two calls of [fs] that change the disk. *)
Inductive FsCall : Type :=
| rmSync (path : string)
| writeFileSync (path data : string).

(** What reaches the terminal, apart from the prompts of the blocking reads. *)
Inductive Output : Type :=
| Error (k : ErrorKind)       (* a method of [Errors] *)
| Fatal (err : Exn)           (* [_fatalError(err)] *)
| Success (message : string)  (* [InfoMessages.success(message)] *)
| Log (text : string)         (* [console.log(text)] *)
| NoCommandEntered.           (* [_errorInterpret(0)] *)

Record World : Type := mkWorld {
  files : gmap string string;       (* the regular files: path to content *)
  fault : FsCall → option string;   (* the platform code a call fails with *)
  calls : list FsCall;              (* the calls made so far, oldest first *)
  yesno : list bool;                (* answers to come for [_promptForYN] *)
  lines : list string;              (* values to come from [question] *)
  ints : list Z;                    (* values to come from [questionInt] *)
  out : list Output;                (* printed so far, oldest first *)
  history : list string             (* the command history *)
}.

Definition set_files (f : gmap string string) (w : World) : World :=
  mkWorld f (fault w) (calls w) (yesno w) (lines w) (ints w) (out w) (history w).
Definition set_calls (c : list FsCall) (w : World) : World :=
  mkWorld (files w) (fault w) c (yesno w) (lines w) (ints w) (out w) (history w).
Definition set_yesno (a : list bool) (w : World) : World :=
  mkWorld (files w) (fault w) (calls w) a (lines w) (ints w) (out w) (history w).
Definition set_lines (l : list string) (w : World) : World :=
  mkWorld (files w) (fault w) (calls w) (yesno w) l (ints w) (out w) (history w).
Definition set_ints (i : list Z) (w : World) : World :=
  mkWorld (files w) (fault w) (calls w) (yesno w) (lines w) i (out w) (history w).
Definition set_out (o : list Output) (w : World) : World :=
  mkWorld (files w) (fault w) (calls w) (yesno w) (lines w) (ints w) o (history w).
Definition set_history (h : list string) (w : World) : World :=
  mkWorld (files w) (fault w) (calls w) (yesno w) (lines w) (ints w) (out w) h.

(** How a statement ends. *)
Inductive Completion : Type :=
| Normal             (* control falls through to the next statement *)
| Return             (* [return;] *)
| Throw (err : Exn)  (* an exception is on its way up *)
| Wait               (* a blocking read that no answer ever ends *)
| Halt.              (* the process has ended *)

Definition Stmt : Type := World → Completion * World.

Definition skip : Stmt := λ w, (Normal, w).
Definition ret : Stmt := λ w, (Return, w).
Definition throw (err : Exn) : Stmt := λ w, (Throw err, w).

(** [s1; s2] *)
Definition seq (s1 s2 : Stmt) : Stmt :=
  λ w, match s1 w with
       | (Normal, w') => s2 w'
       | r => r
       end.

Declare Scope stmt_scope.
Delimit Scope stmt_scope with stmt.
Bind Scope stmt_scope with Stmt.
Notation "s1 ;; s2" := (seq s1 s2)
  (at level 100, s2 at level 200, right associativity) : stmt_scope.
Local Open Scope stmt_scope.

(** [if (c) { s }] *)
Definition when (c : bool) (s : Stmt) : Stmt := if c then s else skip.

(** [try { body } catch (err) { handler }] *)
Definition try_catch (body : Stmt) (handler : Exn → Stmt) : Stmt :=
  λ w, match body w with
       | (Throw err, w') => handler err w'
       | r => r
       end.

(** A call [f(...);] used as a statement: the [return] of the callee ends
    the callee only. *)
Definition call (body : Stmt) : Stmt :=
  λ w, match body w with
       | (Return, w') => (Normal, w')
       | r => r
       end.

(** Reading an identifier that no enclosing scope declares raises a
    [ReferenceError]; the code that was to use the value, [k], does not
    run. *)
Definition undeclared {A : Type} (name : string) (k : A → Stmt) : Stmt :=
  throw (ReferenceError name).

Definition print (o : Output) (w : World) : World := set_out (out w ++ [o]) w.

Definition emit (o : Output) : Stmt := λ w, (Normal, print o w).

(** An [Errors] method prints its message and comes back. *)
Definition report (k : ErrorKind) : Stmt := emit (Error k).

Definition console_log (text : string) : Stmt := emit (Log text).

(** ** The collaborators that are not part of the sources *)

(** Modelled from the spec: [functions/fatalError] is missing.  It is the
    generic fatal report of whatever was caught, and like every failure path
    it gives control back. *)
Definition _fatalError (err : Exn) : Stmt := emit (Fatal err).

(** Modelled from the spec: [InfoMessages] is missing.  [success] prints a
    one-line confirmation. *)
Definition InfoMessages_success (message : string) : Stmt := emit (Success message).

(** Modelled from the spec: [functions/promptForYN] is missing.  It is the
    blocking yes/no confirmation; it changes nothing but the pending
    answers. *)
Definition _promptForYN (k : bool → Stmt) : Stmt :=
  λ w, match yesno w with
       | [] => (Wait, w)
       | b :: rest => k b (set_yesno rest w)
       end.

(** [questionInt] of [readline-sync]: the next integer the user gives. *)
Definition questionInt (k : Z → Stmt) : Stmt :=
  λ w, match ints w with
       | [] => (Wait, w)
       | n :: rest => k n (set_ints rest w)
       end.

(** Modelled from the spec: the class [Checks] and the path helpers
    ([parseQuotes], [convAbs], [caseSensitivePath]) are missing.  The path
    helpers turn the parameter and the other arguments into the absolute
    path; [paramUndefined] and [pathUNC] are the answers of the checker for
    a path. *)
Record Env : Type := mkEnv {
  resolvePath : string → list string → string;
  paramUndefined : string → bool;
  pathUNC : string → bool
}.

(** Modelled from the spec: [Checks.doesExist] is missing; the path exists
    when the file system has it. *)
Definition doesExist (file : string) (k : bool → Stmt) : Stmt :=
  λ w, k (bool_decide (is_Some (files w !! file))) w.

(** ** The file system calls *)

(** [fs.rmSync(file, { recursive: true, force: true })] on a disk of regular
    files: the file at the path is removed, and with [force] a missing path
    is no error.  With [recursive] the call removes a directory together
    with everything below it; the disk of this model holds regular files
    only, so a target that is a directory is outside of it, and no statement
    below speaks of one. *)
Definition fs_rmSync (file : string) : Stmt :=
  λ w, let w' := set_calls (calls w ++ [rmSync file]) w in
       match fault w (rmSync file) with
       | Some c => (Throw (SystemError c), w')
       | None => (Normal, set_files (delete file (files w)) w')
       end.

(** [fs.writeFileSync(file, data, "utf8")].  A call that fails raises the
    error of the platform; what a write that fails half-way leaves at the
    path is not modelled, the disk is kept as it was. *)
Definition fs_writeFileSync (file data : string) : Stmt :=
  λ w, let w' := set_calls (calls w ++ [writeFileSync file data]) w in
       match fault w (writeFileSync file data) with
       | Some c => (Throw (SystemError c), w')
       | None => (Normal, set_files (<[file:=data]> (files w)) w')
       end.

(** ** The handler [mkfile] ([src/commands/mkfile.js]) *)

(** [question] of [readline-sync] has returned: the value is no longer to
    come. *)
Definition taken (rest : list string) : Stmt := λ w, (Normal, set_lines rest w).

(** A blocking read that finds nothing to read. *)
Definition blocked : Stmt := λ w, (Wait, w).

(** The loop that collects the content line by line.  [stdin] is what
    [question] returns from now on, the pending [lines] of the world; every
    iteration takes at least one of these values.  In
    [question("Edit line ...", { defaultInput })] the option belongs to
    [readline-sync]; the value the call returns is the next one of [stdin]. *)
Fixpoint editLoop (file : string) (silent : bool) (contents stdin : list string)
    {struct stdin} : Stmt :=
  match stdin with
  | [] => blocked
  | input :: stdin =>
      taken stdin ;;
      if String.eqb (toUpperCase input) "!SAVE" then
        fs_writeFileSync file (join nl contents) ;;
        (if negb silent
         then InfoMessages_success ("Successfully made the file " ++ file ++ ".")
         else console_log "") ;;
        ret
      else if String.eqb (toUpperCase input) "!CANCEL" then
        console_log "Edits discarded and process aborted." ;;
        ret
      else if String.eqb (toUpperCase input) "!EDIT" then
        if (length contents =? 0)%nat then
          console_log ("No previous input to edit." ++ nl) ;;
          editLoop file silent contents stdin
        else
          questionInt (λ lineNumber,
            if (1 <=? lineNumber) && (lineNumber <=? Z.of_nat (length contents)) then
              match stdin with
              | [] => blocked
              | newLine :: stdin =>
                  taken stdin ;;
                  console_log ("Line " ++ pretty lineNumber
                               ++ " has been updated." ++ nl) ;;
                  editLoop file silent
                    (array_set (Z.to_nat (lineNumber - 1)) newLine contents) stdin
              end
            else
              console_log ("Invalid line number." ++ nl) ;;
              editLoop file silent contents stdin)
      else
        editLoop file silent (contents ++ [input]) stdin
  end.

(** [let contents = []; while (true) { ... }] *)
Definition editor (file : string) (silent : bool) : Stmt :=
  λ w, editLoop file silent [] (lines w) w.

(** The [catch] clause around the deletion.  It declares no parameter, and
    the [err] of the outer clause is in scope in that clause only. *)
Definition mkfile_catch_rm (file : string) : Stmt :=
  undeclared "err" (λ err : Exn,
    if code_is err "EPERM" then report (noPermissions "delete the file" file)
    else if code_is err "EBUSY" then report (inUse "file" file)
    else skip) ;;
  ret.

(** The [catch (err)] clause of the whole handler.  No [dir] is declared
    anywhere in the file. *)
Definition mkfile_catch (file : string) (err : Exn) : Stmt :=
  if code_is err "ENOENT" then
    (report (doesNotExist "file" file) ;; ret)
  else if code_is err "EPERM" then
    (report (noPermissions "make the file" file) ;; ret)
  else if code_is err "ENAMETOOLONG" then
    (report (pathTooLong file) ;; ret)
  else if code_is err "EINVAL" then
    (undeclared "dir" (λ dir : string,
       report (invalidCharacters "directory name" "valid path characters"
                 "characters such as '?' or ':' (Windows only)" dir)) ;;
     ret)
  else
    _fatalError err.

(** The text printed before the first line is asked for. *)
Definition banner : string :=
  "Add the content of the new file. Type '!SAVE' to save changes, "
  ++ "'!CANCEL' to discard, or '!EDIT' to modify previous input:" ++ nl.

(** The [try] block, from the existence check on. *)
Definition mkfile_try (env : Env) (file : string) (silent : bool) : Stmt :=
  when (paramUndefined env file)
    (report (enterParameter "a file" "mkfile test.txt") ;; ret) ;;
  doesExist file (λ found, when found
    (_promptForYN (λ yes,
       if yes then
         try_catch
           (fs_rmSync file ;;
            InfoMessages_success ("Successfully deleted " ++ file ++ "."))
           (λ _, mkfile_catch_rm file)
       else
         (console_log ("Process aborted." ++ nl) ;; ret)))) ;;
  when (pathUNC env file) (report invalidUNCPath ;; ret) ;;
  console_log banner ;;
  editor file silent.

Definition mkfile (env : Env) (file : string) (args : list string) : Stmt :=
  let file := resolvePath env file args in
  let silent := includes args "-s" in
  try_catch (mkfile_try env file silent) (mkfile_catch file).

(** ** The dispatcher [intCmds] *)

(** The callees of the branches, in the order of the branches. *)
Inductive Handler : Type :=
| cmd_exit | cmd_help | cmd_cd | cmd_ls | cmd_sysinfo | cmd_taskkill | cmd_cls
| cmd_mkdir | cmd_exec | cmd_about | cmd_mkfile | cmd_readfile | cmd_copyfile
| cmd_print | cmd_userinfo | cmd_wcount | cmd_del | cmd_tasklist | cmd_size
| cmd_rename | cmd_time | cmd_history | cmd_fif | cmd_cwd | cmd_ifnet | cmd_date
| cmd_bub.

(** Modelled from the spec: [functions/errorInt] is missing.  Code [1] with
    the line is the unrecognized-command entry of the catalogue, code [0]
    the no-command-entered condition. *)
Definition _errorInterpret (code : Z) (command : option string) : Stmt :=
  match code, command with
  | 1, Some c => report (unrecognizedCommand c)
  | 0, _ => emit NoCommandEntered
  | _, _ => skip
  end.

(** Modelled from the spec: [commands/history] is missing.  The raw line is
    appended to the history. *)
Definition _addToHist (command : string) : Stmt :=
  λ w, (Normal, set_history (history w ++ [command]) w).

(** [run h command] is the body of the branch whose callee is [h]: the
    extraction of the arguments from the line and the call. *)
Definition intCmds (run : Handler → string → Stmt) (command : string)
    (isEmpty : bool) : Stmt :=
  when isEmpty (_errorInterpret 0 None) ;;
  (if startsWith command "exit" then run cmd_exit command
   else if startsWith command "help" then run cmd_help command
   else if startsWith command "cd" then run cmd_cd command
   else if startsWith command "ls" then run cmd_ls command
   else if startsWith command "sysinfo" then run cmd_sysinfo command
   else if startsWith command "taskkill" then run cmd_taskkill command
   else if startsWith command "cls" then run cmd_cls command
   else if startsWith command "mkdir" then run cmd_mkdir command
   else if startsWith command "exec" then run cmd_exec command
   else if startsWith command "about" then run cmd_about command
   else if startsWith command "mkfile" then run cmd_mkfile command
   else if startsWith command "readfile" then run cmd_readfile command
   else if startsWith command "copyfile" then run cmd_copyfile command
   else if startsWith command "print" then run cmd_print command
   else if startsWith command "userinfo" then run cmd_userinfo command
   else if startsWith command "wcount" then run cmd_wcount command
   else if startsWith command "del" then run cmd_del command
   else if startsWith command "tasklist" then run cmd_tasklist command
   else if startsWith command "size" then run cmd_size command
   else if startsWith command "rename" then run cmd_rename command
   else if startsWith command "time" then run cmd_time command
   else if startsWith command "history" then run cmd_history command
   else if startsWith command "fif" then run cmd_fif command
   else if startsWith command "cwd" then run cmd_cwd command
   else if startsWith command "ifnet" then run cmd_ifnet command
   else if startsWith command "date" then run cmd_date command
   else if startsWith command "bub" then run cmd_bub command
   else when (negb isEmpty) (_errorInterpret 1 (Some command))) ;;
  when (negb isEmpty) (_addToHist command).

(** The bodies of the branches.  [mkfile(_singleParam(command, "mkfile"))]
    and the [console.log] of [tasklist] are in the sources; [_singleParam],
    [_multiParam] and the other callees are missing, and are taken as given.
    So is [about], which only prints a text made of constants that are
    missing. *)
Record Callees : Type := mkCallees {
  _singleParam : string → string → string;
  missing : Handler → string → Stmt
}.

Definition branch (env : Env) (cs : Callees) (h : Handler) (command : string) : Stmt :=
  match h with
  | cmd_mkfile => call (mkfile env (_singleParam cs command "mkfile") [])
  | cmd_tasklist =>
      console_log ("This command did not work so I removed it :(" ++ nl
                   ++ "    - Arnav, the dev" ++ nl)
  | _ => missing cs h command
  end.

(** The lines of a session, dispatched one after the other; none is empty. *)
Fixpoint session (run : Handler → string → Stmt) (commands : list string) : Stmt :=
  match commands with
  | [] => skip
  | command :: rest => intCmds run command false ;; session run rest
  end.

(** *** The command table of the specification *)

(** The pairs of a prefix and a handler, in the order of declaration. *)
Definition commandTable : list (string * Handler) :=
  [ ("exit", cmd_exit); ("help", cmd_help); ("cd", cmd_cd); ("ls", cmd_ls);
    ("sysinfo", cmd_sysinfo); ("taskkill", cmd_taskkill); ("cls", cmd_cls);
    ("mkdir", cmd_mkdir); ("exec", cmd_exec); ("about", cmd_about);
    ("mkfile", cmd_mkfile); ("readfile", cmd_readfile);
    ("copyfile", cmd_copyfile); ("print", cmd_print);
    ("userinfo", cmd_userinfo); ("wcount", cmd_wcount); ("del", cmd_del);
    ("tasklist", cmd_tasklist); ("size", cmd_size); ("rename", cmd_rename);
    ("time", cmd_time); ("history", cmd_history); ("fif", cmd_fif);
    ("cwd", cmd_cwd); ("ifnet", cmd_ifnet); ("date", cmd_date);
    ("bub", cmd_bub) ].

(** The first entry of a table whose prefix the line starts with. *)
Fixpoint firstMatch (table : list (string * Handler)) (line : string)
    : option Handler :=
  match table with
  | [] => None
  | (prefix, h) :: rest =>
      if startsWith line prefix then Some h else firstMatch rest line
  end.

(** The dispatcher as the specification words it: walk the table, run the
    handler selected, or report the line as unrecognized; then record the
    line. *)
Definition dispatch_spec (run : Handler → string → Stmt) (line : string) : Stmt :=
  match firstMatch commandTable line with
  | Some h => run h line
  | None => report (unrecognizedCommand line)
  end ;;
  _addToHist line.

(** ** Notions used in the statements *)

(** A line that is none of the three commands of the editor. *)
Definition plain (input : string) : bool :=
  negb (String.eqb (toUpperCase input) "!SAVE")
  && negb (String.eqb (toUpperCase input) "!CANCEL")
  && negb (String.eqb (toUpperCase input) "!EDIT").

(** What the editor does once the save command is read, the buffer being
    [contents]. *)
Definition save_and_return (file : string) (silent : bool) (contents : list string)
    : Stmt :=
  fs_writeFileSync file (join nl contents) ;;
  (if negb silent
   then InfoMessages_success ("Successfully made the file " ++ file ++ ".")
   else console_log "") ;;
  ret.

(** How the editor ends when, from the world [w] on, it has printed
    [notice] and then, at the save command, written [data] to [file] and
    confirmed it: [ks] are the numbers and [rest] the lines still to come. *)
Definition saved_with (file : string) (silent : bool) (notice data : string)
    (ks : list Z) (rest : list string) (w : World) : Completion * World :=
  (Return,
   mkWorld (<[file:=data]> (files w)) (fault w)
     (calls w ++ [writeFileSync file data]) (yesno w) rest ks
     (out w ++ [Log notice;
                if silent then Log ""
                else Success ("Successfully made the file " ++ file ++ ".")])
     (history w)).

(** The world once an existing target has been deleted on a yes. *)
Definition deleted (f : string) (ys : list bool) (w : World) : World :=
  print (Success ("Successfully deleted " ++ f ++ "."))
    (set_files (delete f (files w))
       (set_calls (calls w ++ [rmSync f]) (set_yesno ys w))).

(** A branch that leaves the history alone. *)
Definition keeps_history (run : Handler → string → Stmt) : Prop :=
  ∀ h command w, history (snd (run h command w)) = history w.

(** The loop leaves the history alone, and the only exception that leaves it
    is the error of a write. *)
Definition loop_frame (f : string) (w : World) (r : Completion * World) : Prop :=
  history (snd r) = history w ∧
  (fst r = Return ∨ fst r = Wait ∨
   ∃ c data, fst r = Throw (SystemError c) ∧ fault w (writeFileSync f data) = Some c).

(** The same of the [try] block, where the failed deletion throws too. *)
Definition try_frame (f : string) (w : World) (r : Completion * World) : Prop :=
  history (snd r) = history w ∧
  ∀ err, fst r = Throw err →
    err = ReferenceError "err" ∨
    ∃ c data, err = SystemError c ∧ fault w (writeFileSync f data) = Some c.

(** ** The environments of the examples *)

(** Paths are used as typed, none is missing and none is a UNC path. *)
Definition env0 : Env := mkEnv (λ file _, file) (λ _, false) (λ _, false).

(** The parameter is what follows the name of the command and one space;
    the callees that are missing print nothing and come back. *)
Definition callees0 : Callees :=
  mkCallees (λ command name, String.substring (S (String.length name))
                               (String.length command) command)
            (λ _ _, skip).

(** Nothing on the disk, nothing typed, nothing printed. *)
Definition world0 : World :=
  mkWorld ∅ (λ _, None) [] [] [] [] [] [].

(** Nothing on the disk; the user types [stdin]. *)
Definition world_typing (stdin : list string) : World :=
  mkWorld ∅ (λ _, None) [] [] stdin [] [] [].

(** [notes.txt] exists; the user gives [answer] to the question and then
    types [stdin]. *)
Definition world_existing (answer : bool) (stdin : list string) : World :=
  mkWorld {[ "notes.txt" := "old text" ]} (λ _, None) [] [answer] stdin [] [] [].

(** The longest path Windows takes, without the long-path option. *)
Definition overlong (path : string) : bool := (260 <? String.length path)%nat.

Definition long_name : string := String.concat "" (replicate 300 "n") ++ ".txt".

(** A disk that refuses, with the code [c], to write under a path that is
    too long: [ENAMETOOLONG] on Linux and macOS, [EINVAL] on Windows. *)
Definition refuses_overlong (c : string) (call : FsCall) : option string :=
  match call with
  | writeFileSync path _ => if overlong path then Some c else None
  | rmSync _ => None
  end.

(** A disk that refuses every deletion with the code [c]. *)
Definition refuses_rm (c : string) (call : FsCall) : option string :=
  match call with
  | rmSync _ => Some c
  | writeFileSync _ _ => None
  end.

(** Nothing on the disk, the user types [stdin]. *)
Definition world_overlong (c : string) (stdin : list string) : World :=
  mkWorld ∅ (refuses_overlong c) [] [] stdin [] [] [].

(** [notes.txt] exists and cannot be deleted; the user says yes. *)
Definition world_locked (c : string) : World :=
  mkWorld {[ "notes.txt" := "old text" ]} (refuses_rm c) [] [true] ["!SAVE"] [] [] [].

(** ** The rest of the sources *)

(** *** [Errors.js]: the methods and the list in the comment of the class *)

(** The name of the static method that builds the entry. *)
Definition method (k : ErrorKind) : string :=
  match k with
  | unrecognizedCommand _ => "unrecognizedCommand"
  | enterParameter _ _ => "enterParameter"
  | doesNotExist _ _ => "doesNotExist"
  | noPermissions _ _ => "noPermissions"
  | inUse _ _ => "inUse"
  | alreadyExists _ _ => "alreadyExists"
  | expectedFile _ => "expectedFile"
  | expectedDir _ => "expectedDir"
  | invalidOS _ => "invalidOS"
  | invalidEncoding _ => "invalidEncoding"
  | invalidExtension _ => "invalidExtension"
  | invalidCharacters _ _ _ _ => "invalidCharacters"
  | pathTooLong _ => "pathTooLong"
  | dirToNonDir => "dirToNonDir"
  | invalidUNCPath => "invalidUNCPath"
  | unknown _ _ => "unknown"
  end.

(** The list of all errors in the comment of the class: code and method. *)
Definition documented : list (Z * string) :=
  [ (1, "unrecognizedCommand"); (2, "enterParameter"); (3, "doesNotExist");
    (4, "noPermissions"); (5, "inUse"); (6, "alreadyExists");
    (7, "expectedFile"); (8, "expectedDir"); (9, "invalidOS");
    (10, "invalidEncoding"); (11, "invalidExtension");
    (12, "invalidCharacters"); (13, "pathTooLong"); (14, "dirToNonDir");
    (15, "invalidUNCPath"); (16, "unknown") ].

(** *** The command [about] *)

(** The constants of [variables/aboutConsts], which is missing, and the year
    [new Date().getFullYear()] gives. *)
Record AboutConsts : Type := mkAboutConsts {
  GLOBAL_NAME : string;
  AUTHOR : string;
  VERSION : string;
  BUILD : string;
  fullYear : Z
}.

(** The double quote. *)
Definition dq : string := String (ascii_of_nat 34) EmptyString.

(** The name shown with [--ilovetech]. *)
Definition binaryName : string :=
  "01000010 01110101 01100010 01100010 01101100 01100101 01001111 01010011".

(** The text of the licence, as the template literal spells it. *)
Definition licenseText (year : Z) (aboutName : string) : string :=
  join nl
    [ "    MIT License";
      "";
      "    Copyright (c) " ++ pretty year ++ " " ++ aboutName;
      "    ";
      "    Permission is hereby granted, free of charge, to any person obtaining a copy";
      "    of this software and associated documentation files (the " ++ dq
        ++ "Software" ++ dq ++ "), to deal";
      "    in the Software without restriction, including without limitation the rights";
      "    to use, copy, modify, merge, publish, distribute, sublicense, and/or sell";
      "    copies of the Software, and to permit persons to whom the Software is";
      "    furnished to do so, subject to the following conditions:";
      "    ";
      "    The above copyright notice and this permission notice shall be included in all";
      "    copies or substantial portions of the Software.";
      "    ";
      "    THE SOFTWARE IS PROVIDED " ++ dq ++ "AS IS" ++ dq
        ++ ", WITHOUT WARRANTY OF ANY KIND, EXPRESS OR";
      "    IMPLIED, INCLUDING BUT NOT LIMITED TO THE WARRANTIES OF MERCHANTABILITY,";
      "    FITNESS FOR A PARTICULAR PURPOSE AND NONINFRINGEMENT. IN NO EVENT SHALL THE";
      "    AUTHORS OR COPYRIGHT HOLDERS BE LIABLE FOR ANY CLAIM, DAMAGES OR OTHER";
      "    LIABILITY, WHETHER IN AN ACTION OF CONTRACT, TORT OR OTHERWISE, ARISING FROM,";
      "    OUT OF OR IN CONNECTION WITH THE SOFTWARE OR THE USE OR OTHER DEALINGS IN THE";
      "    SOFTWARE." ]
  ++ nl.

(** [about(...params)] *)
Definition about (c : AboutConsts) (params : list string) : Stmt :=
  let license := includes params "-l" || includes params "/l" in
  let binary := includes params "--ilovetech" || includes params "/ilovetech" in
  let aboutName := if binary then binaryName else GLOBAL_NAME c in
  console_log ("About " ++ aboutName ++ nl) ;;
  console_log (aboutName ++ ", v" ++ VERSION c ++ " (build " ++ BUILD c ++ ")") ;;
  console_log ("Made by " ++ AUTHOR c ++ "!" ++ nl) ;;
  console_log
    ("Thanks to Erik (and B-Kernel) for helping out with a few command ideas!" ++ nl) ;;
  when license (console_log (licenseText (fullYear c) aboutName)) ;;
  console_log "GitHub: https://github.com/Bubble-OS/bubbleos" ;;
  console_log "Discord: https://discord.gg/tPTuxcKZkY" ;;
  console_log ("YouTube: https://youtube.com/InfiniTech78" ++ nl).

(** *** The arguments the dispatcher works out itself *)

(** [String.prototype.includes] *)
Fixpoint str_includes (s sub : string) : bool :=
  startsWith s sub
  || match s with
     | EmptyString => false
     | String _ s' => str_includes s' sub
     end.

(** The branch of [sysinfo]: [command.includes("-a") ? sysinfo(true) : sysinfo()];
    [true] stands for the call [sysinfo(true)]. *)
Definition sysinfo_all (command : string) : bool := str_includes command "-a".

(** [command.split(" ")] *)
Fixpoint split_space (s : string) : list string :=
  match s with
  | EmptyString => [EmptyString]
  | String c s' =>
      if Ascii.eqb c " " then EmptyString :: split_space s'
      else match split_space s' with
           | t :: ts => String c t :: ts
           | [] => [String c EmptyString]
           end
  end.

(** The branch of [rename]: [params = command.split(" ")] and the call
    [rename(params[1], params[2])]; [None] stands for [undefined]. *)
Definition rename_params (command : string) : option string * option string :=
  let params := split_space command in
  (params !! 1%nat, params !! 2%nat).

(** A text without a space. *)
Definition no_space (s : string) : bool := negb (str_includes s " ").

(** *** Notions used in the statements about [mkfile] *)

(** An entry that is neither an error of the catalogue nor a fatal report. *)
Definition quiet (o : Output) : bool :=
  match o with
  | Error _ | Fatal _ => false
  | Success _ | Log _ | NoCommandEntered => true
  end.

(** The editor, from the world [w] on: it prints quiet entries only, and it
    makes no call, or the one write of the target. *)
Definition loop_effect (f : string) (w : World) (r : Completion * World) : Prop :=
  (∃ printed, out (snd r) = (out w ++ printed)%list ∧ forallb quiet printed = true) ∧
  ((calls (snd r) = calls w ∧ files (snd r) = files w) ∨
   ∃ d, calls (snd r) = (calls w ++ [writeFileSync f d])%list ∧
        (files (snd r) = <[f:=d]> (files w) ∨ files (snd r) = files w)).

(** The calls a run has made, with what they did to the disk: nothing, the
    deletion, the write, or the deletion and then the write, all of the
    target; a call that is refused leaves the disk as it was. *)
Definition target_only (f : string) (w : World) (r : Completion * World) : Prop :=
  ∃ made, calls (snd r) = (calls w ++ made)%list ∧
    ((made = [] ∧ files (snd r) = files w) ∨
     (made = [rmSync f] ∧
      (files (snd r) = delete f (files w) ∨ files (snd r) = files w)) ∨
     (∃ d, made = [writeFileSync f d] ∧
           (files (snd r) = <[f:=d]> (files w) ∨ files (snd r) = files w)) ∨
     (∃ d, made = [rmSync f; writeFileSync f d] ∧
           (files (snd r) = <[f:=d]> (delete f (files w)) ∨
            files (snd r) = delete f (files w)))).

(** What a run has printed: quiet entries, then at most one report, in which
    case the run has ended normally; a run that ends in an exception has
    printed quiet entries only. *)
Definition one_report (w : World) (r : Completion * World) : Prop :=
  ∃ printed, out (snd r) = (out w ++ printed)%list ∧
    (forallb quiet printed = true ∨
     ∃ q o, printed = (q ++ [o])%list ∧ forallb quiet q = true ∧ quiet o = false ∧
            (fst r = Return ∨ fst r = Normal)).

(** A line that is not the save command. *)
Definition not_save (input : string) : bool :=
  negb (String.eqb (toUpperCase input) "!SAVE").

(** Example constants for [about]. *)
Definition consts0 : AboutConsts :=
  mkAboutConsts "BubbleOS Lite" "Arnav" "1.0.0" "100" 2024.

(** The parameter is missing when it is empty, and a path is a UNC path when
    it starts with two backslashes. *)
Definition env1 : Env :=
  mkEnv (λ file _, file) (String.eqb "") (λ file, startsWith file "\\").

(** A path on a share. *)
Definition share_path : string := "\\server\share\notes.txt".

(** The file [path] exists, next to [other.txt]; the user gives [answers] to
    the questions and types [stdin]; the disk refuses what [refused] says. *)
Definition world_with (path : string) (refused : FsCall → option string)
    (answers : list bool) (stdin : list string) : World :=
  mkWorld {[ path := "old text"; "other.txt" := "other text" ]} refused []
    answers stdin [] [] [].

(** A disk that refuses every write with the code [c]. *)
Definition refuses_write (c : string) (call : FsCall) : option string :=
  match call with
  | writeFileSync _ _ => Some c
  | rmSync _ => None
  end.

(** A run that has made no call and has ended by itself or waits. *)
Definition no_write (w : World) (r : Completion * World) : Prop :=
  calls (snd r) = calls w ∧ files (snd r) = files w ∧
  (fst r = Return ∨ fst r = Wait).

(** * Properties *)

(** ** Prefixes and the command table *)

Lemma startsWith_app (p rest : string) : startsWith (p ++ rest) p = true.
Proof.
  induction p as [|a p IH]; simpl; [reflexivity|].
  rewrite Ascii.eqb_refl. exact IH.
Qed.

(** [startsWith] is the literal prefix relation: no character is folded. *)
Lemma startsWith_spec (s p : string) :
  startsWith s p = true ↔ ∃ rest, s = p ++ rest.
Proof.
  split.
  - revert s. induction p as [|a p IH]; intros s H.
    + exists s. reflexivity.
    + destruct s as [|b s]; simpl in H; [discriminate|].
      apply andb_true_iff in H as [Hab Hp].
      apply Ascii.eqb_eq in Hab. subst b.
      destruct (IH s Hp) as [rest ->]. exists rest. reflexivity.
  - intros [rest ->]. apply startsWith_app.
Qed.

Lemma firstMatch_None (table : list (string * Handler)) (line : string) :
  (∀ p h, In (p, h) table → startsWith line p = false) →
  firstMatch table line = None.
Proof.
  induction table as [|[p h] table IH]; intros H; simpl; [reflexivity|].
  rewrite (H p h) by (left; reflexivity).
  apply IH. intros p' h' Hin. apply (H p' h'). right. exact Hin.
Qed.

(** What [firstMatch] returns is the handler of an entry that matches and
    that no matching entry precedes. *)
Lemma firstMatch_Some (table : list (string * Handler)) (line : string) (h : Handler) :
  firstMatch table line = Some h ↔
  ∃ before p after,
    table = (before ++ (p, h) :: after)%list ∧ startsWith line p = true ∧
    Forall (λ e, startsWith line (fst e) = false) before.
Proof.
  split.
  - induction table as [|[p h'] table IH]; simpl; [discriminate|].
    destruct (startsWith line p) eqn:Hp.
    + intros [= ->]. exists [], p, table. repeat split; [exact Hp|constructor].
    + intros H. destruct (IH H) as (before & q & after & -> & Hq & Hbefore).
      exists ((p, h') :: before), q, after. repeat split; [exact Hq|].
      constructor; [exact Hp|exact Hbefore].
  - intros (before & p & after & -> & Hp & Hbefore).
    induction Hbefore as [|[q h'] before Hq _ IH]; simpl.
    + rewrite Hp. reflexivity.
    + simpl in Hq. rewrite Hq. exact IH.
Qed.

(** The chain of branches of [intCmds] walks [commandTable]. *)
Lemma intCmds_dispatch_spec (run : Handler → string → Stmt) (command : string)
    (w : World) :
  intCmds run command false w = dispatch_spec run command w.
Proof.
  unfold intCmds, dispatch_spec, commandTable, firstMatch, seq, when, skip.
  cbn -[startsWith].
  repeat (destruct (startsWith command _); [reflexivity|]).
  reflexivity.
Qed.

Lemma commandTable_keyword (p : string) (h : Handler) (rest : string) :
  In (p, h) commandTable → firstMatch commandTable (p ++ rest) = Some h.
Proof.
  unfold commandTable. simpl.
  intros H.
  repeat (destruct H as [[= <- <-]|H]; [reflexivity|]).
  destruct H.
Qed.

(** C4. For a line that is not empty the dispatcher runs the handler of the
    first entry of the command table, in the order of declaration, whose
    prefix the line literally starts with, upper and lower case being
    different characters; nothing is required of the character after the
    keyword, so a keyword followed at once by other letters, such as
    [cdrom], still selects the handler of the keyword. *)
Theorem intCmds_first_prefix :
  (∀ run command w,
     intCmds run command false w
     = (match firstMatch commandTable command with
        | Some h => run h command
        | None => report (unrecognizedCommand command)
        end ;; _addToHist command) w) ∧
  (∀ line h,
     firstMatch commandTable line = Some h ↔
     ∃ before p after,
       commandTable = (before ++ (p, h) :: after)%list ∧ (∃ rest, line = p ++ rest) ∧
       Forall (λ e, ¬ ∃ rest, line = fst e ++ rest) before) ∧
  (∀ p h rest, In (p, h) commandTable → firstMatch commandTable (p ++ rest) = Some h) ∧
  firstMatch commandTable "cdrom" = Some cmd_cd ∧
  firstMatch commandTable "CD src" = None.
Proof.
  split; [|split; [|split; [|split]]].
  - intros run command w. apply intCmds_dispatch_spec.
  - intros line h. rewrite firstMatch_Some.
    split; intros (before & p & after & Htable & Hp & Hbefore);
      exists before, p, after; (split; [exact Htable|]).
    + split; [apply startsWith_spec; exact Hp|].
      eapply Forall_impl; [exact Hbefore|].
      intros e He Hex. apply startsWith_spec in Hex. congruence.
    + split; [apply startsWith_spec; exact Hp|].
      eapply Forall_impl; [exact Hbefore|].
      intros e He. destruct (startsWith line (fst e)) eqn:Hs; [|reflexivity].
      exfalso. apply He. apply startsWith_spec. exact Hs.
  - intros p h rest. apply commandTable_keyword.
  - reflexivity.
  - reflexivity.
Qed.

(** C5. A line that is not empty and that starts with no prefix of the
    command table is reported with the unrecognised-command entry of the
    catalogue, whose code is 1 and which carries the line, and the raw line
    is appended to the history all the same; nothing else changes. *)
Theorem intCmds_unrecognized (run : Handler → string → Stmt) (command : string)
    (w : World) :
  Forall (λ e, startsWith command (fst e) = false) commandTable →
  let r := intCmds run command false w in
  fst r = Normal ∧
  out (snd r) = (out w ++ [Error (unrecognizedCommand command)])%list ∧
  CODE (unrecognizedCommand command) = 1 ∧
  history (snd r) = (history w ++ [command])%list ∧
  files (snd r) = files w ∧ calls (snd r) = calls w.
Proof.
  intros Hno r. subst r.
  rewrite intCmds_dispatch_spec. unfold dispatch_spec.
  rewrite firstMatch_None.
  - repeat split.
  - intros p h Hin. rewrite Forall_forall in Hno.
    apply (Hno (p, h)). apply list_elem_of_In. exact Hin.
Qed.

Lemma intCmds_unrecognized_witness :
  fst (intCmds (branch env0 callees0) "make coffee" false world0) = Normal ∧
  out (snd (intCmds (branch env0 callees0) "make coffee" false world0))
  = [Error (unrecognizedCommand "make coffee")] ∧
  CODE (unrecognizedCommand "make coffee") = 1 ∧
  history (snd (intCmds (branch env0 callees0) "make coffee" false world0))
  = ["make coffee"] ∧
  files (snd (intCmds (branch env0 callees0) "make coffee" false world0)) = ∅ ∧
  calls (snd (intCmds (branch env0 callees0) "make coffee" false world0)) = [].
Proof.
  refine (intCmds_unrecognized (branch env0 callees0) "make coffee" world0 _).
  repeat constructor.
Defined.

(** ** The history *)

(** The dispatcher records the line once the branch has come back, and only
    then. *)
Lemma intCmds_history (run : Handler → string → Stmt) (command : string) (w : World) :
  keeps_history run →
  let r := intCmds run command false w in
  (fst r = Normal → history (snd r) = (history w ++ [command])%list) ∧
  (fst r ≠ Normal → history (snd r) = history w).
Proof.
  intros Hrun r. subst r.
  rewrite intCmds_dispatch_spec. unfold dispatch_spec, seq.
  destruct (firstMatch commandTable command) as [h|].
  - specialize (Hrun h command w).
    destruct (run h command w) as [[| | | |] w']; simpl in *;
      split; intros H; try congruence.
  - simpl. split; intros H; [reflexivity|congruence].
Qed.

(** A session that runs to its end has recorded its lines, in order. *)
Lemma session_history (run : Handler → string → Stmt) (commands : list string)
    (w : World) :
  keeps_history run →
  fst (session run commands w) = Normal →
  history (snd (session run commands w)) = (history w ++ commands)%list.
Proof.
  intros Hrun. revert w.
  induction commands as [|command rest IH]; intros w; simpl.
  - intros _. rewrite app_nil_r. reflexivity.
  - unfold seq.
    pose proof (intCmds_history run command w Hrun) as [Hn He].
    destruct (intCmds run command false w) as [c w'] eqn:Hc. simpl in Hn, He.
    destruct c; try (simpl; discriminate).
    intros H. rewrite (IH w' H), (Hn eq_refl), <- app_assoc. reflexivity.
Qed.

(** ** The editor loop *)

(** The pending lines of a world, written back, give the same world. *)
Lemma set_lines_id w l : lines w = l → set_lines l w = w.
Proof. intros <-. destruct w. reflexivity. Qed.

Lemma editLoop_plain file silent contents input stdin w :
  plain input = true →
  editLoop file silent contents (input :: stdin) w
  = editLoop file silent (contents ++ [input]) stdin (set_lines stdin w).
Proof.
  unfold plain. intros H.
  apply andb_true_iff in H as [H He]. apply andb_true_iff in H as [Hs Hc].
  apply negb_true_iff in Hs, Hc, He.
  cbn [editLoop]. rewrite Hs, Hc, He. reflexivity.
Qed.

Lemma editLoop_typed file silent contents ls stdin w :
  Forall (λ l, plain l = true) ls →
  editLoop file silent contents (ls ++ stdin) (set_lines (ls ++ stdin) w)
  = editLoop file silent (contents ++ ls) stdin (set_lines stdin w).
Proof.
  intros H. revert contents w.
  induction H as [|l ls Hl _ IH]; intros contents w; simpl app.
  - rewrite app_nil_r. reflexivity.
  - rewrite (editLoop_plain _ _ _ _ _ _ Hl).
    change (set_lines (ls ++ stdin) (set_lines (l :: ls ++ stdin) w))
      with (set_lines (ls ++ stdin) w).
    rewrite IH, <- app_assoc. reflexivity.
Qed.

Lemma editLoop_save file silent contents save stdin w :
  toUpperCase save = "!SAVE" →
  editLoop file silent contents (save :: stdin) w
  = save_and_return file silent contents (set_lines stdin w).
Proof. intros H. cbn [editLoop]. rewrite H. reflexivity. Qed.

Lemma editLoop_cancel file silent contents cancel stdin w :
  toUpperCase cancel = "!CANCEL" →
  editLoop file silent contents (cancel :: stdin) w
  = (Return, print (Log "Edits discarded and process aborted.") (set_lines stdin w)).
Proof. intros H. cbn [editLoop]. rewrite H. reflexivity. Qed.

(** ** Reaching the editor *)

(** A target that does not exist yet: no question is asked. *)
Lemma mkfile_try_fresh env f silent w :
  paramUndefined env f = false → pathUNC env f = false → files w !! f = None →
  mkfile_try env f silent w = editLoop f silent [] (lines w) (print (Log banner) w).
Proof.
  intros Hp Hu Hf.
  unfold mkfile_try, seq, when, doesExist, editor, console_log, emit, skip.
  rewrite Hp, Hu, Hf.
  rewrite bool_decide_eq_false_2 by (intros [? ?]; discriminate).
  reflexivity.
Qed.

Lemma mkfile_try_overwrite env f silent w content ys :
  paramUndefined env f = false → pathUNC env f = false →
  files w !! f = Some content → yesno w = true :: ys → fault w (rmSync f) = None →
  mkfile_try env f silent w
  = editLoop f silent [] (lines w) (print (Log banner) (deleted f ys w)).
Proof.
  intros Hp Hu Hf Hy Hr.
  unfold mkfile_try, seq, when, doesExist, editor, console_log, emit, skip,
    _promptForYN, try_catch, fs_rmSync, InfoMessages_success.
  rewrite Hp, Hf.
  rewrite bool_decide_eq_true_2 by (eexists; reflexivity).
  rewrite Hy. cbn. rewrite Hr, Hu. reflexivity.
Qed.

(** ** Saving *)

Lemma save_and_return_ok file silent contents w :
  fault w (writeFileSync file (join nl contents)) = None →
  save_and_return file silent contents w
  = (Return,
     print (if silent then Log ""
            else Success ("Successfully made the file " ++ file ++ "."))
       (set_files (<[file:=join nl contents]> (files w))
          (set_calls (calls w ++ [writeFileSync file (join nl contents)]) w))).
Proof.
  intros H. unfold save_and_return, seq, fs_writeFileSync. rewrite H.
  destruct silent; reflexivity.
Qed.

Lemma save_and_return_fails file silent contents w c :
  fault w (writeFileSync file (join nl contents)) = Some c →
  save_and_return file silent contents w
  = (Throw (SystemError c),
     set_calls (calls w ++ [writeFileSync file (join nl contents)]) w).
Proof.
  intros H. unfold save_and_return, seq, fs_writeFileSync. rewrite H. reflexivity.
Qed.

(** The handler on a target that does not exist, when the user types the
    lines [ls] and then the save command: the buffer is [ls] when
    [writeFileSync] is called, inside the [try] block. *)
Lemma mkfile_reaches_save env file args w ls save rest :
  let f := resolvePath env file args in
  paramUndefined env f = false → pathUNC env f = false → files w !! f = None →
  lines w = (ls ++ save :: rest)%list →
  Forall (λ l, plain l = true) ls → toUpperCase save = "!SAVE" →
  mkfile env file args w
  = try_catch (save_and_return f (includes args "-s") ls) (mkfile_catch f)
      (set_lines rest (print (Log banner) w)).
Proof.
  intros f Hp Hu Hf Hl Hls Hs.
  unfold mkfile. fold f. unfold try_catch at 1.
  rewrite (mkfile_try_fresh env f _ w Hp Hu Hf), Hl.
  rewrite <- (set_lines_id (print (Log banner) w) (ls ++ save :: rest)) by exact Hl.
  rewrite (editLoop_typed _ _ _ _ _ _ Hls), (editLoop_save _ _ _ _ _ _ Hs).
  reflexivity.
Qed.

(** C7. Round trip of the editor: on a target that does not exist yet, the
    lines typed, followed by the save command, are written joined by single
    line feeds, so that the file then holds exactly that text; with the lines
    alpha and beta it holds alpha, a line feed and beta, and no line feed
    after beta.  The same holds of whatever the buffer is when the save
    command is read. *)
Theorem mkfile_save_writes_joined_lines env file args w ls save rest :
  let f := resolvePath env file args in
  paramUndefined env f = false → pathUNC env f = false → files w !! f = None →
  lines w = (ls ++ save :: rest)%list →
  Forall (λ l, plain l = true) ls → toUpperCase save = "!SAVE" →
  fault w (writeFileSync f (join nl ls)) = None →
  let r := mkfile env file args w in
  fst r = Return ∧
  calls (snd r) = (calls w ++ [writeFileSync f (join nl ls)])%list ∧
  files (snd r) = <[f:=join nl ls]> (files w) ∧
  files (snd r) !! f = Some (join nl ls) ∧
  out (snd r)
  = (out w ++ [Log banner;
               if includes args "-s" then Log ""
               else Success ("Successfully made the file " ++ f ++ ".")])%list ∧
  lines (snd r) = rest ∧
  (∀ contents w',
     fault w' (writeFileSync f (join nl contents)) = None →
     files (snd (editLoop f (includes args "-s") contents (save :: rest) w'))
     = <[f:=join nl contents]> (files w')).
Proof.
  intros f Hp Hu Hf Hl Hls Hs Hw r. subst r.
  rewrite (mkfile_reaches_save env file args w ls save rest Hp Hu Hf Hl Hls Hs).
  fold f. unfold try_catch.
  rewrite save_and_return_ok by exact Hw.
  do 3 (split; [reflexivity|]).
  split; [cbn; apply lookup_insert_eq|].
  split; [cbn; rewrite <- app_assoc; reflexivity|].
  split; [reflexivity|].
  - intros contents w' Hw'.
    rewrite (editLoop_save _ _ _ _ _ _ Hs), save_and_return_ok by exact Hw'.
    reflexivity.
Qed.

Lemma mkfile_save_writes_joined_lines_witness :
  fst (mkfile env0 "notes.txt" [] (world_typing ["alpha"; "beta"; "!save"])) = Return ∧
  calls (snd (mkfile env0 "notes.txt" [] (world_typing ["alpha"; "beta"; "!save"])))
  = [writeFileSync "notes.txt" ("alpha" ++ nl ++ "beta")] ∧
  files (snd (mkfile env0 "notes.txt" [] (world_typing ["alpha"; "beta"; "!save"])))
  = <[("notes.txt"):=("alpha" ++ nl ++ "beta")]> ∅ ∧
  files (snd (mkfile env0 "notes.txt" [] (world_typing ["alpha"; "beta"; "!save"])))
    !! "notes.txt" = Some ("alpha" ++ nl ++ "beta") ∧
  out (snd (mkfile env0 "notes.txt" [] (world_typing ["alpha"; "beta"; "!save"])))
  = [Log banner; Success "Successfully made the file notes.txt."] ∧
  lines (snd (mkfile env0 "notes.txt" [] (world_typing ["alpha"; "beta"; "!save"])))
  = [] ∧
  (∀ contents w',
     fault w' (writeFileSync "notes.txt" (join nl contents)) = None →
     files (snd (editLoop "notes.txt" false contents ["!save"] w'))
     = <[("notes.txt"):=join nl contents]> (files w')).
Proof.
  refine (mkfile_save_writes_joined_lines env0 "notes.txt" []
            (world_typing ["alpha"; "beta"; "!save"])
            ["alpha"; "beta"] "!save" [] _ _ _ _ _ _ _).
  - reflexivity.
  - reflexivity.
  - reflexivity.
  - reflexivity.
  - repeat constructor.
  - reflexivity.
  - reflexivity.
Defined.

(** ** Editing a line *)

(** Inside the buffer [array_set] is the update of one slot. *)
Lemma array_set_inside (i : nat) (v : string) (a : list string) :
  (i < length a)%nat →
  length (array_set i v a) = length a ∧
  array_set i v a !! i = Some v ∧
  ∀ j, j ≠ i → array_set i v a !! j = a !! j.
Proof.
  intros Hi. unfold array_set. rewrite decide_True by exact Hi.
  split; [apply length_insert|].
  split; [apply list_lookup_insert_eq; exact Hi|].
  intros j Hj. apply list_lookup_insert_ne. congruence.
Qed.

(** The branch of the edit command, the buffer not being empty. *)
Lemma editLoop_edit file silent contents e stdin w k ks :
  toUpperCase e = "!EDIT" → contents ≠ [] → ints w = k :: ks →
  editLoop file silent contents (e :: stdin) w
  = if (1 <=? k) && (k <=? Z.of_nat (length contents)) then
      match stdin with
      | [] => (Wait, set_ints ks (set_lines [] w))
      | newLine :: stdin =>
          editLoop file silent
            (array_set (Z.to_nat (k - 1)) newLine contents) stdin
            (print (Log ("Line " ++ pretty k ++ " has been updated." ++ nl))
               (set_lines stdin (set_ints ks w)))
      end
    else
      editLoop file silent contents stdin
        (print (Log ("Invalid line number." ++ nl))
           (set_lines stdin (set_ints ks w))).
Proof.
  intros He Hc Hk. cbn [editLoop]. rewrite He.
  destruct contents as [|c contents]; [congruence|].
  unfold seq at 1, taken, questionInt. cbn [ints set_lines String.eqb Ascii.eqb
    Bool.eqb length Nat.eqb]. rewrite Hk.
  destruct ((1 <=? k) && (k <=? _)); [destruct stdin|]; reflexivity.
Qed.

Lemma editLoop_edit_empty file silent e stdin w :
  toUpperCase e = "!EDIT" →
  editLoop file silent [] (e :: stdin) w
  = editLoop file silent [] stdin
      (print (Log ("No previous input to edit." ++ nl)) (set_lines stdin w)).
Proof. intros He. cbn [editLoop]. rewrite He. reflexivity. Qed.

(** Inside the buffer the slot is replaced; the lines before it and after
    it stay where they are. *)
Lemma array_set_take_drop (i : nat) (v : string) (a : list string) :
  (i < length a)%nat → array_set i v a = (take i a ++ v :: drop (S i) a)%list.
Proof.
  intros Hi. unfold array_set. rewrite decide_True by exact Hi.
  apply insert_take_drop. exact Hi.
Qed.

(** The lines [ls] and then the save command, typed when the buffer is
    [contents], the write going through. *)
Lemma editLoop_typed_then_saved file silent contents ls save rest w :
  Forall (λ l, plain l = true) ls → toUpperCase save = "!SAVE" →
  fault w (writeFileSync file (join nl (contents ++ ls))) = None →
  editLoop file silent contents (ls ++ save :: rest)
    (set_lines (ls ++ save :: rest) w)
  = (Return,
     print (if silent then Log ""
            else Success ("Successfully made the file " ++ file ++ "."))
       (set_files (<[file:=join nl (contents ++ ls)]> (files w))
          (set_calls (calls w ++ [writeFileSync file (join nl (contents ++ ls))])
             (set_lines rest w)))).
Proof.
  intros Hls Hs Hw.
  rewrite (editLoop_typed _ _ _ _ _ _ Hls), (editLoop_save _ _ _ _ _ _ Hs).
  rewrite save_and_return_ok by exact Hw. reflexivity.
Qed.

(** The counterexample of C8: on an empty buffer the edit command asks for
    no line number, the number the user had ready is still to come, and the
    notice printed is not the one of an invalid line number. *)
Lemma editLoop_empty_buffer_no_invalid_number :
  out (snd (editLoop "notes.txt" false [] ["!edit"; "!save"] (set_ints [1] world0)))
  = [Log ("No previous input to edit." ++ nl);
     Success "Successfully made the file notes.txt."] ∧
  ¬ In (Log ("Invalid line number." ++ nl))
      (out (snd (editLoop "notes.txt" false [] ["!edit"; "!save"]
                   (set_ints [1] world0)))) ∧
  ints (snd (editLoop "notes.txt" false [] ["!edit"; "!save"] (set_ints [1] world0)))
  = [1].
Proof.
  rewrite (editLoop_edit_empty "notes.txt" false "!edit" ["!save"]) by reflexivity.
  rewrite (editLoop_save "notes.txt" false [] "!save" []) by reflexivity.
  rewrite save_and_return_ok by reflexivity.
  cbn [snd out ints print set_out set_files set_calls set_lines set_ints world0 app].
  split; [reflexivity|]. split; [|reflexivity].
  intros [H|[H|[]]]; discriminate H.
Qed.

(** C8, amended. The edit command, then the lines [ls] and the save command,
    on a disk that takes the write: what is written shows the buffer.  On a
    buffer of n lines, n not being 0, with a line number k between 1 and n
    the k-th line is replaced by the content entered, the lines before and
    after it are as they were, and the update is confirmed.  With k outside
    1..n no content is asked for, the buffer is unchanged and the notice of
    an invalid line number is printed.  On an empty buffer no number is
    asked for, the buffer stays empty and the notice printed is that there
    is nothing to edit.  In no case is anything fatal raised or reported:
    the loop goes on to the save command and returns. *)
Theorem editLoop_edit_line file silent contents e ls save rest w :
  toUpperCase e = "!EDIT" →
  Forall (λ l, plain l = true) ls → toUpperCase save = "!SAVE" →
  (∀ data, fault w (writeFileSync file data) = None) →
  (∀ k ks newLine,
     ints w = k :: ks → 1 ≤ k ≤ Z.of_nat (length contents) →
     editLoop file silent contents (e :: newLine :: ls ++ save :: rest) w
     = saved_with file silent ("Line " ++ pretty k ++ " has been updated." ++ nl)
         (join nl (take (Z.to_nat (k - 1)) contents
                   ++ newLine :: drop (Z.to_nat k) contents ++ ls)%list)
         ks rest w) ∧
  (∀ k ks,
     ints w = k :: ks → contents ≠ [] → ¬ (1 ≤ k ≤ Z.of_nat (length contents)) →
     editLoop file silent contents (e :: ls ++ save :: rest) w
     = saved_with file silent ("Invalid line number." ++ nl)
         (join nl (contents ++ ls)%list) ks rest w) ∧
  (contents = [] →
   editLoop file silent contents (e :: ls ++ save :: rest) w
   = saved_with file silent ("No previous input to edit." ++ nl)
       (join nl ls) (ints w) rest w).
Proof.
  intros He Hls Hs Hw. split; [|split].
  - intros k ks newLine Hk Hrange.
    assert (Hc : contents ≠ [])
      by (destruct contents; simpl in Hrange; [lia|congruence]).
    rewrite (editLoop_edit _ _ _ _ _ _ _ _ He Hc Hk).
    replace ((1 <=? k) && (k <=? Z.of_nat (length contents))) with true
      by (symmetry; apply andb_true_iff; split; apply Z.leb_le; lia).
    change (print (Log ("Line " ++ pretty k ++ " has been updated." ++ nl))
              (set_lines (ls ++ save :: rest) (set_ints ks w)))
      with (set_lines (ls ++ save :: rest)
              (print (Log ("Line " ++ pretty k ++ " has been updated." ++ nl))
                 (set_ints ks w))).
    rewrite (editLoop_typed_then_saved _ _ _ _ _ _ _ Hls Hs) by apply Hw.
    rewrite array_set_take_drop by lia.
    replace (S (Z.to_nat (k - 1))) with (Z.to_nat k) by lia.
    rewrite <- app_assoc. cbn [app].
    unfold saved_with, print, set_files, set_calls, set_lines, set_ints, set_out.
    cbn [files fault calls yesno lines ints out history].
    rewrite <- app_assoc. reflexivity.
  - intros k ks Hk Hc Hrange.
    rewrite (editLoop_edit _ _ _ _ _ _ _ _ He Hc Hk).
    replace ((1 <=? k) && (k <=? Z.of_nat (length contents))) with false.
    + change (print (Log ("Invalid line number." ++ nl))
                (set_lines (ls ++ save :: rest) (set_ints ks w)))
        with (set_lines (ls ++ save :: rest)
                (print (Log ("Invalid line number." ++ nl)) (set_ints ks w))).
      rewrite (editLoop_typed_then_saved _ _ _ _ _ _ _ Hls Hs) by apply Hw.
      unfold saved_with, print, set_files, set_calls, set_lines, set_ints, set_out.
      cbn [files fault calls yesno lines ints out history].
      rewrite <- app_assoc. reflexivity.
    + symmetry. apply andb_false_iff.
      destruct (Z.leb_spec 1 k); [|left; reflexivity].
      right. apply Z.leb_gt. lia.
  - intros ->.
    rewrite (editLoop_edit_empty _ _ _ _ _ He).
    change (print (Log ("No previous input to edit." ++ nl))
              (set_lines (ls ++ save :: rest) w))
      with (set_lines (ls ++ save :: rest)
              (print (Log ("No previous input to edit." ++ nl)) w)).
    rewrite (editLoop_typed_then_saved _ _ _ _ _ _ _ Hls Hs) by apply Hw.
    unfold saved_with, print, set_files, set_calls, set_lines, set_ints, set_out.
      cbn [files fault calls yesno lines ints out history].
      rewrite <- app_assoc. reflexivity.
Qed.

Lemma editLoop_edit_line_witness :
  (editLoop "notes.txt" false ["alpha"; "beta"] ["!edit"; "gamma"; "!save"]
     (set_ints [2] world0)
   = (Return,
      mkWorld (<[("notes.txt"):=("alpha" ++ nl ++ "gamma")]> ∅) (λ _, None)
        [writeFileSync "notes.txt" ("alpha" ++ nl ++ "gamma")] [] [] []
        [Log ("Line 2 has been updated." ++ nl);
         Success "Successfully made the file notes.txt."] [])) ∧
  (editLoop "notes.txt" false ["alpha"; "beta"] ["!edit"; "!save"]
     (set_ints [5] world0)
   = (Return,
      mkWorld (<[("notes.txt"):=("alpha" ++ nl ++ "beta")]> ∅) (λ _, None)
        [writeFileSync "notes.txt" ("alpha" ++ nl ++ "beta")] [] [] []
        [Log ("Invalid line number." ++ nl);
         Success "Successfully made the file notes.txt."] [])) ∧
  (editLoop "notes.txt" false [] ["!edit"; "alpha"; "!save"] (set_ints [5] world0)
   = (Return,
      mkWorld (<[("notes.txt"):="alpha"]> ∅) (λ _, None)
        [writeFileSync "notes.txt" "alpha"] [] [] [5]
        [Log ("No previous input to edit." ++ nl);
         Success "Successfully made the file notes.txt."] [])).
Proof.
  split; [|split].
  - refine (proj1 (editLoop_edit_line "notes.txt" false ["alpha"; "beta"] "!edit"
                     [] "!save" [] (set_ints [2] world0) eq_refl _ eq_refl _)
              2 [] "gamma" eq_refl _).
    + constructor.
    + reflexivity.
    + simpl. lia.
  - refine (proj1 (proj2 (editLoop_edit_line "notes.txt" false ["alpha"; "beta"]
                            "!edit" [] "!save" [] (set_ints [5] world0)
                            eq_refl _ eq_refl _))
              5 [] eq_refl _ _).
    + constructor.
    + reflexivity.
    + discriminate.
    + simpl. lia.
  - refine (proj2 (proj2 (editLoop_edit_line "notes.txt" false [] "!edit"
                            ["alpha"] "!save" [] (set_ints [5] world0)
                            eq_refl _ eq_refl _)) eq_refl).
    + repeat constructor.
    + reflexivity.
Defined.

(** ** Overwriting an existing file *)

(** C9. When the target exists and the answer to the question is no, the
    handler makes no call that changes the disk, so the file keeps its
    content; it prints the notice that the process is aborted and nothing
    else, no entry of the catalogue and no fatal report, and returns. *)
Theorem mkfile_declined_overwrite env file args w content ys :
  let f := resolvePath env file args in
  paramUndefined env f = false →
  files w !! f = Some content → yesno w = false :: ys →
  let r := mkfile env file args w in
  r = (Return, print (Log ("Process aborted." ++ nl)) (set_yesno ys w)) ∧
  calls (snd r) = calls w ∧
  files (snd r) = files w ∧ files (snd r) !! f = Some content ∧
  out (snd r) = (out w ++ [Log ("Process aborted." ++ nl)])%list.
Proof.
  intros f Hp Hf Hy r. subst r.
  assert (H : mkfile env file args w
              = (Return, print (Log ("Process aborted." ++ nl)) (set_yesno ys w))).
  { unfold mkfile. fold f.
    unfold try_catch, mkfile_try, seq, when, doesExist, _promptForYN, skip.
    rewrite Hp. cbv beta iota. rewrite Hf.
    rewrite bool_decide_eq_true_2 by (eexists; reflexivity).
    rewrite Hy. reflexivity. }
  rewrite H. repeat split. exact Hf.
Qed.

Lemma mkfile_declined_overwrite_witness :
  mkfile env0 "notes.txt" [] (world_existing false [])
  = (Return, print (Log ("Process aborted." ++ nl))
               (set_yesno [] (world_existing false []))) ∧
  calls (snd (mkfile env0 "notes.txt" [] (world_existing false []))) = [] ∧
  files (snd (mkfile env0 "notes.txt" [] (world_existing false [])))
  = {[ "notes.txt" := "old text" ]} ∧
  files (snd (mkfile env0 "notes.txt" [] (world_existing false [])))
    !! "notes.txt" = Some "old text" ∧
  out (snd (mkfile env0 "notes.txt" [] (world_existing false [])))
  = [Log ("Process aborted." ++ nl)].
Proof.
  refine (mkfile_declined_overwrite env0 "notes.txt" [] (world_existing false [])
            "old text" [] _ _ _).
  - reflexivity.
  - vm_compute. reflexivity.
  - reflexivity.
Defined.

(** C10. When the target exists, the answer is yes and the deletion goes
    through, the file is gone before the editor asks for its first line; if
    the user then types lines and the cancel command, nothing is written,
    the only call made is the deletion, and the file stays deleted: the
    content is lost although nothing was saved. *)
Theorem mkfile_overwrite_then_cancel env file args w content ys ls cancel rest :
  let f := resolvePath env file args in
  paramUndefined env f = false → pathUNC env f = false →
  files w !! f = Some content → yesno w = true :: ys →
  fault w (rmSync f) = None →
  Forall (λ l, plain l = true) ls → toUpperCase cancel = "!CANCEL" →
  (let r := mkfile env file args (set_lines [] w) in
   fst r = Wait ∧ files (snd r) = delete f (files w) ∧
   calls (snd r) = (calls w ++ [rmSync f])%list) ∧
  (let r := mkfile env file args (set_lines (ls ++ cancel :: rest) w) in
   fst r = Return ∧
   files (snd r) = delete f (files w) ∧ files (snd r) !! f = None ∧
   calls (snd r) = (calls w ++ [rmSync f])%list ∧
   out (snd r)
   = (out w ++ [Success ("Successfully deleted " ++ f ++ "."); Log banner;
                Log "Edits discarded and process aborted."])%list).
Proof.
  intros f Hp Hu Hf Hy Hr Hls Hc. split; intros r; subst r.
  - unfold mkfile. fold f. unfold try_catch.
    rewrite (mkfile_try_overwrite env f _ (set_lines [] w) content ys Hp Hu Hf Hy Hr).
    repeat split.
  - unfold mkfile. fold f. unfold try_catch.
    rewrite (mkfile_try_overwrite env f _ (set_lines (ls ++ cancel :: rest) w)
               content ys Hp Hu Hf Hy Hr).
    cbn [lines set_lines].
    change (print (Log banner) (deleted f ys (set_lines (ls ++ cancel :: rest) w)))
      with (set_lines (ls ++ cancel :: rest) (print (Log banner) (deleted f ys w))).
    rewrite (editLoop_typed _ _ _ _ _ _ Hls), (editLoop_cancel _ _ _ _ _ _ Hc).
    split; [reflexivity|]. split; [reflexivity|].
    split; [cbn; apply lookup_delete_eq|].
    split; [reflexivity|].
    cbn. rewrite <- !app_assoc. reflexivity.
Qed.

Lemma mkfile_overwrite_then_cancel_witness :
  (fst (mkfile env0 "notes.txt" [] (world_existing true [])) = Wait ∧
   files (snd (mkfile env0 "notes.txt" [] (world_existing true [])))
   = delete "notes.txt" {[ "notes.txt" := "old text" ]} ∧
   calls (snd (mkfile env0 "notes.txt" [] (world_existing true [])))
   = [rmSync "notes.txt"]) ∧
  (fst (mkfile env0 "notes.txt" [] (world_existing true ["draft"; "!cancel"]))
   = Return ∧
   files (snd (mkfile env0 "notes.txt" [] (world_existing true ["draft"; "!cancel"])))
   = delete "notes.txt" {[ "notes.txt" := "old text" ]} ∧
   files (snd (mkfile env0 "notes.txt" [] (world_existing true ["draft"; "!cancel"])))
     !! "notes.txt" = None ∧
   calls (snd (mkfile env0 "notes.txt" [] (world_existing true ["draft"; "!cancel"])))
   = [rmSync "notes.txt"] ∧
   out (snd (mkfile env0 "notes.txt" [] (world_existing true ["draft"; "!cancel"])))
   = [Success "Successfully deleted notes.txt."; Log banner;
      Log "Edits discarded and process aborted."]).
Proof.
  refine (mkfile_overwrite_then_cancel env0 "notes.txt" [] (world_existing true [])
            "old text" [] ["draft"] "!cancel" [] _ _ _ _ _ _ _).
  - reflexivity.
  - reflexivity.
  - vm_compute. reflexivity.
  - reflexivity.
  - reflexivity.
  - repeat constructor.
  - reflexivity.
Defined.

(** ** Failures of the file system calls *)

(** The write fails: the outer [catch] clause gets the error. *)
Lemma mkfile_create_fails env file args w ls save rest c :
  let f := resolvePath env file args in
  paramUndefined env f = false → pathUNC env f = false → files w !! f = None →
  lines w = (ls ++ save :: rest)%list →
  Forall (λ l, plain l = true) ls → toUpperCase save = "!SAVE" →
  fault w (writeFileSync f (join nl ls)) = Some c →
  mkfile env file args w
  = mkfile_catch f (SystemError c)
      (set_calls (calls w ++ [writeFileSync f (join nl ls)])
         (set_lines rest (print (Log banner) w))).
Proof.
  intros f Hp Hu Hf Hl Hls Hs Hw.
  rewrite (mkfile_reaches_save env file args w ls save rest Hp Hu Hf Hl Hls Hs).
  fold f. unfold try_catch.
  rewrite (save_and_return_fails _ _ _ _ c) by exact Hw. reflexivity.
Qed.

(** The codes the outer clause names, apart from [EINVAL]. *)
Lemma mkfile_catch_documented f w :
  mkfile_catch f (SystemError "ENOENT") w
  = (Return, print (Error (doesNotExist "file" f)) w) ∧
  mkfile_catch f (SystemError "EPERM") w
  = (Return, print (Error (noPermissions "make the file" f)) w) ∧
  mkfile_catch f (SystemError "ENAMETOOLONG") w
  = (Return, print (Error (pathTooLong f)) w).
Proof. repeat split. Qed.

(** The branch for [EINVAL] reads [dir]. *)
Lemma mkfile_catch_EINVAL f w :
  mkfile_catch f (SystemError "EINVAL") w = (Throw (ReferenceError "dir"), w).
Proof. reflexivity. Qed.


(** The deletion fails: the inner clause reads [err], the outer clause gets
    the [ReferenceError], which has no code. *)
Lemma mkfile_delete_fails env file args w content ys c :
  let f := resolvePath env file args in
  paramUndefined env f = false →
  files w !! f = Some content → yesno w = true :: ys →
  fault w (rmSync f) = Some c →
  mkfile env file args w
  = (Normal, print (Fatal (ReferenceError "err"))
               (set_calls (calls w ++ [rmSync f]) (set_yesno ys w))).
Proof.
  intros f Hp Hf Hy Hr.
  unfold mkfile. fold f.
  unfold try_catch at 1.
  unfold mkfile_try, seq, when, doesExist, _promptForYN, skip.
  rewrite Hp. cbv beta iota. rewrite Hf.
  rewrite bool_decide_eq_true_2 by (eexists; reflexivity).
  rewrite Hy. unfold try_catch, fs_rmSync. cbn [fault set_yesno].
  rewrite Hr. reflexivity.
Qed.

(** The codes of the creation that the handler documents are reported as
    documented. *)
Lemma mkfile_create_documented env file args w ls save rest c :
  let f := resolvePath env file args in
  paramUndefined env f = false → pathUNC env f = false → files w !! f = None →
  lines w = (ls ++ save :: rest)%list →
  Forall (λ l, plain l = true) ls → toUpperCase save = "!SAVE" →
  fault w (writeFileSync f (join nl ls)) = Some c →
  let r := mkfile env file args w in
  (c = "ENOENT" →
   fst r = Return ∧
   out (snd r) = (out w ++ [Log banner; Error (doesNotExist "file" f)])%list) ∧
  (c = "EPERM" →
   fst r = Return ∧
   out (snd r) = (out w ++ [Log banner; Error (noPermissions "make the file" f)])%list) ∧
  (c = "ENAMETOOLONG" →
   fst r = Return ∧
   out (snd r) = (out w ++ [Log banner; Error (pathTooLong f)])%list).
Proof.
  intros f Hp Hu Hf Hl Hls Hs Hw r. subst r.
  rewrite (mkfile_create_fails env file args w ls save rest c Hp Hu Hf Hl Hls Hs Hw).
  fold f.
  repeat split; subst c; cbn; try reflexivity; rewrite <- app_assoc; reflexivity.
Qed.

(** C1. The specification asks that every code with a documented mapping be
    reported with its entry of the catalogue, never with the fatal report.
    For the codes of the creation see [mkfile_create_documented].  For the
    deletion before an overwrite the handler does otherwise: with [EPERM] as
    with [EBUSY] the clause reads the undeclared [err], and what is printed
    is the fatal report of the [ReferenceError]; the file is still there. *)
Theorem mkfile_delete_errors_end_in_fatal :
  mkfile env0 "notes.txt" [] (world_locked "EPERM")
  = (Normal, mkWorld {[ "notes.txt" := "old text" ]} (refuses_rm "EPERM")
               [rmSync "notes.txt"] [] ["!SAVE"] [] [Fatal (ReferenceError "err")] []) ∧
  mkfile env0 "notes.txt" [] (world_locked "EBUSY")
  = (Normal, mkWorld {[ "notes.txt" := "old text" ]} (refuses_rm "EBUSY")
               [rmSync "notes.txt"] [] ["!SAVE"] [] [Fatal (ReferenceError "err")] []) ∧
  ¬ In (Error (noPermissions "delete the file" "notes.txt"))
      (out (snd (mkfile env0 "notes.txt" [] (world_locked "EPERM")))) ∧
  ¬ In (Error (inUse "file" "notes.txt"))
      (out (snd (mkfile env0 "notes.txt" [] (world_locked "EBUSY")))).
Proof.
  assert (H : ∀ c, mkfile env0 "notes.txt" [] (world_locked c)
                   = (Normal, mkWorld {[ "notes.txt" := "old text" ]} (refuses_rm c)
                                [rmSync "notes.txt"] [] ["!SAVE"] []
                                [Fatal (ReferenceError "err")] [])).
  { intros c.
    rewrite (mkfile_delete_fails env0 "notes.txt" [] (world_locked c) "old text" [] c);
      reflexivity. }
  split; [apply H|]. split; [apply H|].
  rewrite !H. cbn [snd out].
  split; intros [Heq|[]]; discriminate Heq.
Qed.

(** The counterexample of C2: on a disk that answers [EINVAL] to a path that
    is too long, the handler does not report that the path is too long. *)
Lemma mkfile_EINVAL_not_pathTooLong :
  overlong long_name = true ∧
  ¬ In (Error (pathTooLong long_name))
      (out (snd (mkfile env0 long_name [] (world_overlong "EINVAL" ["!SAVE"])))).
Proof.
  split; [reflexivity|].
  rewrite (mkfile_create_fails env0 long_name [] (world_overlong "EINVAL" ["!SAVE"])
             [] "!SAVE" [] "EINVAL"); try reflexivity; [|constructor].
  rewrite mkfile_catch_EINVAL. cbn [snd out set_calls set_lines print set_out].
  intros [Heq|[]]. discriminate Heq.
Qed.

(** C2, amended. When the creation fails with [ENAMETOOLONG], the handler
    reports that the path is too long, the entry of code 13, and returns; it
    prints nothing about invalid characters.  A failure with [EINVAL], the
    code Windows gives for a path that is too long, goes to another branch
    and is not reported as a path that is too long. *)
Theorem mkfile_path_too_long env file args w ls save rest :
  let f := resolvePath env file args in
  paramUndefined env f = false → pathUNC env f = false → files w !! f = None →
  lines w = (ls ++ save :: rest)%list →
  Forall (λ l, plain l = true) ls → toUpperCase save = "!SAVE" →
  let r := mkfile env file args w in
  (fault w (writeFileSync f (join nl ls)) = Some "ENAMETOOLONG" →
   fst r = Return ∧
   out (snd r) = (out w ++ [Log banner; Error (pathTooLong f)])%list ∧
   CODE (pathTooLong f) = 13) ∧
  (fault w (writeFileSync f (join nl ls)) = Some "EINVAL" →
   ∃ printed, out (snd r) = (out w ++ printed)%list ∧
              ∀ p, ¬ In (Error (pathTooLong p)) printed).
Proof.
  intros f Hp Hu Hf Hl Hls Hs r. subst r. split; intros Hw.
  - destruct (mkfile_create_documented env file args w ls save rest _
                Hp Hu Hf Hl Hls Hs Hw) as (_ & _ & H).
    destruct (H eq_refl) as [Hr Ho]. repeat split; assumption.
  - rewrite (mkfile_create_fails env file args w ls save rest _ Hp Hu Hf Hl Hls Hs Hw).
    rewrite mkfile_catch_EINVAL. exists [Log banner]. split; [reflexivity|].
    intros p [Heq|[]]. discriminate Heq.
Qed.

Lemma mkfile_path_too_long_witness :
  (fst (mkfile env0 long_name [] (world_overlong "ENAMETOOLONG" ["!SAVE"])) = Return ∧
   out (snd (mkfile env0 long_name [] (world_overlong "ENAMETOOLONG" ["!SAVE"])))
   = [Log banner; Error (pathTooLong long_name)] ∧
   CODE (pathTooLong long_name) = 13) ∧
  (∃ printed,
     out (snd (mkfile env0 long_name [] (world_overlong "EINVAL" ["!SAVE"])))
     = printed ∧
     ∀ p, ¬ In (Error (pathTooLong p)) printed).
Proof.
  split.
  - refine (proj1 (mkfile_path_too_long env0 long_name []
                     (world_overlong "ENAMETOOLONG" ["!SAVE"]) [] "!SAVE" []
                     _ _ _ _ _ _) _).
    + reflexivity.
    + reflexivity.
    + reflexivity.
    + reflexivity.
    + constructor.
    + reflexivity.
    + reflexivity.
  - refine (proj2 (mkfile_path_too_long env0 long_name []
                     (world_overlong "EINVAL" ["!SAVE"]) [] "!SAVE" []
                     _ _ _ _ _ _) _).
    + reflexivity.
    + reflexivity.
    + reflexivity.
    + reflexivity.
    + constructor.
    + reflexivity.
    + reflexivity.
Defined.

(** On the disk that answers [EINVAL] to a long path the [ReferenceError]
    leaves the handler, whatever the history is. *)
Lemma mkfile_overlong_EINVAL h :
  mkfile env0 long_name [] (set_history h (world_overlong "EINVAL" ["!SAVE"]))
  = (Throw (ReferenceError "dir"),
     mkWorld ∅ (refuses_overlong "EINVAL") [writeFileSync long_name ""] [] [] []
       [Log banner] h).
Proof.
  rewrite (mkfile_create_fails env0 long_name []
             (set_history h (world_overlong "EINVAL" ["!SAVE"]))
             [] "!SAVE" [] "EINVAL"); try reflexivity.
  constructor.
Qed.

(** C3. The specification asks that, whatever code the file system calls
    raise, the handler end with one report and return.  With [EINVAL] from
    the write it does otherwise: the branch reads the undeclared [dir],
    nothing is reported after the banner and the [ReferenceError] leaves the
    handler. *)
Theorem mkfile_EINVAL_throws :
  mkfile env0 long_name [] (world_overlong "EINVAL" ["!SAVE"])
  = (Throw (ReferenceError "dir"),
     mkWorld ∅ (refuses_overlong "EINVAL") [writeFileSync long_name ""] [] [] []
       [Log banner] []) ∧
  overlong long_name = true.
Proof. split; [exact (mkfile_overlong_EINVAL [])|reflexivity]. Qed.

(** C6. The specification asks that the history after a session be the
    history before it followed by the lines, whatever the handlers did.
    [session_history] proves it of every session that runs to its end.  With
    the fault of [mkfile_overlong_EINVAL] the dispatcher is left before it
    records the line: of three lines the history holds the first only. *)
Theorem session_mkfile_EINVAL_history :
  session (branch env0 callees0) ["help"; "mkfile " ++ long_name; "cwd"]
    (world_overlong "EINVAL" ["!SAVE"])
  = (Throw (ReferenceError "dir"),
     mkWorld ∅ (refuses_overlong "EINVAL") [writeFileSync long_name ""] [] [] []
       [Log banner] ["help"]) ∧
  intCmds (branch env0 callees0) ("mkfile " ++ long_name) false
    (world_overlong "EINVAL" ["!SAVE"])
  = (Throw (ReferenceError "dir"),
     mkWorld ∅ (refuses_overlong "EINVAL") [writeFileSync long_name ""] [] [] []
       [Log banner] []).
Proof.
  pose proof mkfile_overlong_EINVAL as Hm.
  split.
  - cbn [session]. unfold seq at 1.
    rewrite intCmds_dispatch_spec. unfold dispatch_spec.
    change (firstMatch commandTable "help") with (Some cmd_help).
    cbn [branch missing callees0 seq skip _addToHist].
    unfold seq at 1.
    rewrite intCmds_dispatch_spec. unfold dispatch_spec.
    change (firstMatch commandTable ("mkfile " ++ long_name)) with (Some cmd_mkfile).
    cbn [branch]. unfold seq, call.
    change (_singleParam callees0 ("mkfile " ++ long_name) "mkfile") with long_name.
    change (set_history (history (world_overlong "EINVAL" ["!SAVE"]) ++ ["help"])
              (world_overlong "EINVAL" ["!SAVE"]))
      with (set_history ["help"] (world_overlong "EINVAL" ["!SAVE"])).
    rewrite Hm. reflexivity.
  - rewrite intCmds_dispatch_spec. unfold dispatch_spec.
    change (firstMatch commandTable ("mkfile " ++ long_name)) with (Some cmd_mkfile).
    cbn [branch]. unfold seq, call.
    change (_singleParam callees0 ("mkfile " ++ long_name) "mkfile") with long_name.
    exact (f_equal (λ r, r) (Hm [])).
Qed.

(** ** What the handler never touches, and what it can throw *)

Lemma editLoop_frame f silent n :
  ∀ stdin contents w, (length stdin ≤ n)%nat →
    loop_frame f w (editLoop f silent contents stdin w).
Proof.
  induction n as [|n IH]; intros [|input stdin] contents w Hn; simpl in Hn;
    try lia; try (split; [reflexivity|right; left; reflexivity]).
  cbn [editLoop]. unfold seq at 1, taken. cbv beta iota.
  destruct (String.eqb (toUpperCase input) "!SAVE").
  { unfold seq, fs_writeFileSync. cbn [fault set_lines].
    destruct (fault w (writeFileSync f (join nl contents))) as [c|] eqn:Hw.
    - split; [reflexivity|]. right; right. exists c, (join nl contents).
      split; [reflexivity|exact Hw].
    - destruct silent; (split; [reflexivity|left; reflexivity]). }
  destruct (String.eqb (toUpperCase input) "!CANCEL").
  { split; [reflexivity|left; reflexivity]. }
  destruct (String.eqb (toUpperCase input) "!EDIT").
  - destruct (length contents =? 0)%nat.
    { apply (IH stdin contents (print _ (set_lines stdin w))). lia. }
    unfold questionInt. cbn [ints set_lines].
    destruct (ints w) as [|k ks].
    { split; [reflexivity|right; left; reflexivity]. }
    destruct ((1 <=? k) && (k <=? Z.of_nat (length contents))).
    + destruct stdin as [|newLine stdin].
      { split; [reflexivity|right; left; reflexivity]. }
      apply (IH stdin _ (print _ (set_lines stdin (set_ints ks w)))).
      simpl in Hn. lia.
    + apply (IH stdin contents (print _ (set_ints ks (set_lines stdin w)))). lia.
  - apply (IH stdin _ (set_lines stdin w)). lia.
Qed.

Lemma mkfile_try_frame env f silent w :
  try_frame f w (mkfile_try env f silent w).
Proof.
  assert (Hloop : ∀ w', history w' = history w → fault w' = fault w →
            try_frame f w
              ((when (pathUNC env f) (report invalidUNCPath ;; ret) ;;
                console_log banner ;; editor f silent) w')).
  { intros w' Hh Hfa. unfold seq, when.
    destruct (pathUNC env f); cbn; [split; [exact Hh|discriminate]|].
    unfold editor.
    destruct (editLoop_frame f silent _ (lines w') []
                (print (Log banner) w') (Nat.le_refl _)) as [Hh' Hc].
    cbn [history print set_out fault] in Hh', Hc.
    split; [congruence|].
    intros err Herr. right.
    destruct Hc as [Hc|[Hc|(c & data & Hc & Hw)]]; try congruence.
    exists c, data. rewrite <- Hfa. split; [congruence|exact Hw]. }
  unfold mkfile_try.
  unfold seq at 1, when at 1.
  destruct (paramUndefined env f); cbn; [split; [reflexivity|discriminate]|].
  unfold seq at 1, doesExist, when at 1.
  destruct (bool_decide (is_Some (files w !! f)));
    [|exact (Hloop w eq_refl eq_refl)].
  unfold _promptForYN.
  destruct (yesno w) as [|[|] ys]; cbn; [split; [reflexivity|discriminate]| |].
  - unfold try_catch, seq at 1, fs_rmSync. cbn [fault set_yesno].
    destruct (fault w (rmSync f)).
    + cbn. split; [reflexivity|]. intros err [= <-]. left. reflexivity.
    + exact (Hloop (deleted f ys w) eq_refl eq_refl).
  - split; [reflexivity|discriminate].
Qed.

(** The handler leaves the history alone; the one exception that can leave
    it is the [ReferenceError] for [dir], after a write refused with
    [EINVAL]. *)
Lemma mkfile_frame env file args w :
  let f := resolvePath env file args in
  let r := mkfile env file args w in
  history (snd r) = history w ∧
  ∀ err, fst r = Throw err →
    err = ReferenceError "dir" ∧
    ∃ data, fault w (writeFileSync f data) = Some "EINVAL".
Proof.
  intros f r. subst r. unfold mkfile. fold f.
  destruct (mkfile_try_frame env f (includes args "-s") w) as [Hh Ht].
  unfold try_catch.
  destruct (mkfile_try env f (includes args "-s") w) as [[| |e| |] w'];
    cbn [fst snd] in *; try (split; [exact Hh|discriminate]).
  unfold mkfile_catch.
  destruct (code_is e "ENOENT"); [cbn; split; [exact Hh|discriminate]|].
  destruct (code_is e "EPERM"); [cbn; split; [exact Hh|discriminate]|].
  destruct (code_is e "ENAMETOOLONG"); [cbn; split; [exact Hh|discriminate]|].
  destruct (code_is e "EINVAL") eqn:He; [|cbn; split; [exact Hh|discriminate]].
  cbn. split; [exact Hh|]. intros err [= <-]. split; [reflexivity|].
  destruct (Ht e eq_refl) as [->|(c & data & -> & Hw)]; [discriminate He|].
  exists data. unfold code_is in He. cbn in He.
  apply String.eqb_eq in He. subst c. exact Hw.
Qed.

Lemma branch_keeps_history env cs :
  keeps_history (missing cs) → keeps_history (branch env cs).
Proof.
  intros Hm h command w. destruct h; try apply Hm.
  - cbn [branch]. unfold call.
    pose proof (mkfile_frame env (_singleParam cs command "mkfile") [] w) as [Hh _].
    destruct (mkfile env (_singleParam cs command "mkfile") [] w) as [[| | | |] w'];
      exact Hh.
  - reflexivity.
Qed.

(** With the handlers of the sources, a session that runs to its end has
    recorded its lines, provided the callees that are missing leave the
    history alone. *)
Lemma session_branch_history env cs commands w :
  keeps_history (missing cs) →
  fst (session (branch env cs) commands w) = Normal →
  history (snd (session (branch env cs) commands w)) = (history w ++ commands)%list.
Proof.
  intros Hm. apply session_history, branch_keeps_history, Hm.
Qed.

(** The lines alpha and beta, the second one edited to gamma, then saved. *)
Example mkfile_edit_then_save :
  files (snd (mkfile env0 "notes.txt" []
                (set_ints [2] (world_typing ["alpha"; "beta"; "!EDIT"; "gamma"; "!SAVE"]))))
    !! "notes.txt"
  = Some ("alpha" ++ nl ++ "gamma").
Proof. vm_compute. reflexivity. Qed.

(** A number out of range leaves the two lines as they are; the handler
    prints the notice and goes on to the save command. *)
Example mkfile_edit_out_of_range :
  mkfile env0 "notes.txt" []
    (set_ints [5] (world_typing ["alpha"; "beta"; "!EDIT"; "!SAVE"]))
  = (Return,
     mkWorld {[ "notes.txt" := "alpha" ++ nl ++ "beta" ]} (λ _, None)
       [writeFileSync "notes.txt" ("alpha" ++ nl ++ "beta")] [] [] []
       [Log banner; Log ("Invalid line number." ++ nl);
        Success "Successfully made the file notes.txt."] []).
Proof. vm_compute. reflexivity. Qed.

(** * Further properties of the sources *)

(** ** The catalogue of errors *)

(** X1. The codes of the methods are the ones the comment of the class
    lists: every entry is built by the method listed under its code, the
    codes are exactly 1 to 16, and two entries have the same code only when
    the same method built them. *)
Theorem CODE_as_documented :
  (∀ k, In (CODE k, method k) documented) ∧
  (∀ k, 1 ≤ CODE k ≤ 16) ∧
  (∀ n, 1 ≤ n ≤ 16 → ∃ k, CODE k = n) ∧
  (∀ k1 k2, CODE k1 = CODE k2 ↔ method k1 = method k2).
Proof.
  split; [|split; [|split]].
  - intros k. destruct k; cbn; tauto.
  - intros k. destruct k; cbn; lia.
  - intros n Hn.
    assert (H : n = 1 ∨ n = 2 ∨ n = 3 ∨ n = 4 ∨ n = 5 ∨ n = 6 ∨ n = 7 ∨ n = 8 ∨
                n = 9 ∨ n = 10 ∨ n = 11 ∨ n = 12 ∨ n = 13 ∨ n = 14 ∨ n = 15 ∨
                n = 16) by lia.
    repeat (destruct H as [->|H]).
    + exists (unrecognizedCommand ""). reflexivity.
    + exists (enterParameter "" ""). reflexivity.
    + exists (doesNotExist "" ""). reflexivity.
    + exists (noPermissions "" ""). reflexivity.
    + exists (inUse "" ""). reflexivity.
    + exists (alreadyExists "" ""). reflexivity.
    + exists (expectedFile ""). reflexivity.
    + exists (expectedDir ""). reflexivity.
    + exists (invalidOS ""). reflexivity.
    + exists (invalidEncoding ""). reflexivity.
    + exists (invalidExtension ""). reflexivity.
    + exists (invalidCharacters "" "" "" ""). reflexivity.
    + exists (pathTooLong ""). reflexivity.
    + exists dirToNonDir. reflexivity.
    + exists invalidUNCPath. reflexivity.
    + subst n. exists (unknown "" ""). reflexivity.
  - intros k1 k2. destruct k1, k2; cbn; split; intros H;
      first [reflexivity | discriminate H].
Qed.

(** X2. The number in brackets at the start of a printed error tells the
    entry: two errors that are printed as the same line have the same code,
    whatever their fields are. *)
Theorem render_tells_code (g1 g2 : string) (k1 k2 : ErrorKind) :
  render g1 k1 = render g2 k2 → CODE k1 = CODE k2.
Proof.
  unfold render, _interpretError.
  destruct k1, k2; intros H; try reflexivity; exfalso;
    vm_compute in H; discriminate H.
Qed.

Lemma render_tells_code_witness :
  render "BubbleOS" (doesNotExist "x" "y', 'z")
  = render "BubbleOS Lite" (doesNotExist "x, 'y'" "z") ∧
  doesNotExist "x" "y', 'z" ≠ doesNotExist "x, 'y'" "z" ∧
  CODE (doesNotExist "x" "y', 'z") = CODE (doesNotExist "x, 'y'" "z").
Proof.
  split; [reflexivity|]. split; [discriminate|].
  refine (render_tells_code "BubbleOS" "BubbleOS Lite"
            (doesNotExist "x" "y', 'z") (doesNotExist "x, 'y'" "z") _).
  reflexivity.
Defined.

(** ** The dispatcher *)

(** X3. With [isEmpty] the dispatcher reports that no command was entered;
    for a line that starts with no prefix of the table, the empty line
    among them, it does nothing else: no handler runs, nothing is reported
    as unrecognised and nothing is recorded.  Even for a line that does
    start with a prefix nothing is added to the history. *)
Theorem intCmds_isEmpty (run : Handler → string → Stmt) (command : string)
    (w : World) :
  Forall (λ e, startsWith command (fst e) = false) commandTable →
  keeps_history run →
  intCmds run command true w = (Normal, print NoCommandEntered w) ∧
  ∀ line w', history (snd (intCmds run line true w')) = history w'.
Proof.
  intros Hno Hrun. split.
  - assert (H : firstMatch commandTable command = None).
    { apply firstMatch_None. intros p h Hin. rewrite Forall_forall in Hno.
      apply (Hno (p, h)). apply list_elem_of_In. exact Hin. }
    revert H. unfold intCmds, commandTable, firstMatch, seq, when, skip.
    cbn -[startsWith].
    repeat (destruct (startsWith command _); [discriminate|]).
    reflexivity.
  - intros line w'. unfold intCmds, seq, when, skip. cbn -[startsWith].
    repeat match goal with
           | |- context [if startsWith line ?p then _ else _] =>
               destruct (startsWith line p)
           end;
      try match goal with
          | |- context [run ?h line ?v] =>
              pose proof (Hrun h line v) as Hh;
              destruct (run h line v) as [[| | | |] ?]; exact Hh
          end.
    reflexivity.
Qed.

Lemma intCmds_isEmpty_witness :
  Forall (λ e, startsWith "" (fst e) = false) commandTable ∧
  intCmds (branch env0 callees0) "" true world0
  = (Normal, print NoCommandEntered world0) ∧
  ∀ line w', history (snd (intCmds (branch env0 callees0) line true w')) = history w'.
Proof.
  split; [repeat constructor|].
  refine (intCmds_isEmpty (branch env0 callees0) "" world0 _ _).
  - repeat constructor.
  - apply branch_keeps_history. intros h command w. reflexivity.
Defined.

(** Two prefixes of one line: one of them starts with the other. *)
Lemma startsWith_two (line p1 p2 : string) :
  startsWith line p1 = true → startsWith line p2 = true →
  startsWith p1 p2 = true ∨ startsWith p2 p1 = true.
Proof.
  revert line p2. induction p1 as [|a p1 IH]; intros line p2 H1 H2.
  - right. reflexivity.
  - destruct p2 as [|b p2]; [left; reflexivity|].
    destruct line as [|c line]; [discriminate H1|].
    cbn in H1, H2.
    apply andb_true_iff in H1 as [Ha H1]. apply andb_true_iff in H2 as [Hb H2].
    apply Ascii.eqb_eq in Ha, Hb. subst a b.
    cbn. rewrite Ascii.eqb_refl. cbn. exact (IH line p2 H1 H2).
Qed.

Lemma commandTable_one_match line p1 h1 p2 h2 :
  In (p1, h1) commandTable → In (p2, h2) commandTable →
  startsWith line p1 = true → startsWith line p2 = true →
  p1 = p2 ∧ h1 = h2.
Proof.
  unfold commandTable. simpl. intros H1 H2 Hs1 Hs2.
  repeat (destruct H1 as [[= <- <-]|H1]); try (destruct H1);
    repeat (destruct H2 as [[= <- <-]|H2]); try (destruct H2);
    first [ split; reflexivity
          | destruct (startsWith_two _ _ _ Hs1 Hs2) as [E|E]; discriminate E ].
Qed.

Lemma firstMatch_finds table line p h :
  In (p, h) table → startsWith line p = true →
  ∃ p' h', firstMatch table line = Some h' ∧ In (p', h') table ∧
           startsWith line p' = true.
Proof.
  induction table as [|[q g] table IH]; intros Hin Hs; [destruct Hin|].
  simpl. destruct (startsWith line q) eqn:Hq.
  - exists q, g. repeat split; [left; reflexivity|exact Hq].
  - destruct Hin as [[= -> ->]|Hin]; [congruence|].
    destruct (IH Hin Hs) as (p' & h' & Hf & Hin' & Hs').
    exists p', h'. repeat split; [exact Hf|right; exact Hin'|exact Hs'].
Qed.

Lemma firstMatch_member table line h :
  firstMatch table line = Some h →
  ∃ p, In (p, h) table ∧ startsWith line p = true.
Proof.
  induction table as [|[q g] table IH]; simpl; [discriminate|].
  destruct (startsWith line q) eqn:Hq.
  - intros [= ->]. exists q. split; [left; reflexivity|exact Hq].
  - intros H. destruct (IH H) as (p & Hin & Hs). exists p.
    split; [right; exact Hin|exact Hs].
Qed.

(** X4. No keyword of the table starts with another one, so a line starts
    with at most one of them: the handler selected is the handler of the
    keyword the line starts with, and the order in which the branches are
    written decides nothing. *)
Theorem commandTable_order_free :
  (∀ line p1 h1 p2 h2,
     In (p1, h1) commandTable → In (p2, h2) commandTable →
     startsWith line p1 = true → startsWith line p2 = true →
     p1 = p2 ∧ h1 = h2) ∧
  (∀ line h,
     firstMatch commandTable line = Some h ↔
     ∃ p, In (p, h) commandTable ∧ startsWith line p = true) ∧
  (∀ table line,
     Permutation commandTable table →
     firstMatch table line = firstMatch commandTable line).
Proof.
  assert (Hiff : ∀ table line h,
            (∀ x, In x table ↔ In x commandTable) →
            (firstMatch table line = Some h ↔
             ∃ p, In (p, h) commandTable ∧ startsWith line p = true)).
  { intros table line h Hsame. split.
    - intros H. destruct (firstMatch_member _ _ _ H) as (p & Hin & Hs).
      exists p. split; [apply Hsame; exact Hin|exact Hs].
    - intros (p & Hin & Hs).
      destruct (firstMatch_finds table line p h) as (p' & h' & Hf & Hin' & Hs');
        [apply Hsame; exact Hin|exact Hs|].
      apply Hsame in Hin'.
      destruct (commandTable_one_match line p h p' h' Hin Hin' Hs Hs') as [_ ->].
      exact Hf. }
  split; [exact commandTable_one_match|]. split.
  - intros line h. apply Hiff. intros x. reflexivity.
  - intros table line Hperm.
    assert (Hsame : ∀ x, In x table ↔ In x commandTable).
    { intros x. rewrite <- !list_elem_of_In. rewrite Hperm. reflexivity. }
    destruct (firstMatch table line) as [h|] eqn:Ht.
    + symmetry. apply (Hiff commandTable line h (λ x, iff_refl _)).
      apply (Hiff table line h Hsame). exact Ht.
    + destruct (firstMatch commandTable line) as [h|] eqn:Hc; [|reflexivity].
      apply (Hiff commandTable line h (λ x, iff_refl _)) in Hc.
      apply (Hiff table line h Hsame) in Hc. congruence.
Qed.

(** X5. Whatever happens in a session, the history only grows, and by the
    lines dispatched so far, in their order: what is recorded is the old
    history followed by the first [k] lines, all of them when the session
    runs to its end. *)
Theorem session_history_grows (run : Handler → string → Stmt)
    (commands : list string) (w : World) :
  keeps_history run →
  ∃ k, (k ≤ length commands)%nat ∧
       history (snd (session run commands w)) = (history w ++ take k commands)%list ∧
       (fst (session run commands w) = Normal → k = length commands).
Proof.
  intros Hrun. revert w.
  induction commands as [|command rest IH]; intros w.
  - exists 0%nat. cbn. rewrite app_nil_r. repeat split. lia.
  - cbn [session]. unfold seq.
    pose proof (intCmds_history run command w Hrun) as [Hn He].
    destruct (intCmds run command false w) as [c w'] eqn:Hc. cbn [fst snd] in Hn, He.
    destruct c;
      try (exists 0%nat; cbn; rewrite app_nil_r;
           split; [lia|split; [apply He; discriminate|discriminate]]).
    destruct (IH w') as (k & Hk & Hh & Hend).
    exists (S k). cbn [length take]. split; [lia|]. split.
    + rewrite Hh, (Hn eq_refl), <- app_assoc. reflexivity.
    + intros H. rewrite (Hend H). reflexivity.
Qed.

Lemma session_history_grows_witness :
  ∃ k, (k ≤ 3)%nat ∧
       history (snd (session (branch env0 callees0)
                       ["help"; "mkfile " ++ long_name; "cwd"]
                       (world_overlong "EINVAL" ["!SAVE"])))
       = take k ["help"; "mkfile " ++ long_name; "cwd"] ∧
       (fst (session (branch env0 callees0)
               ["help"; "mkfile " ++ long_name; "cwd"]
               (world_overlong "EINVAL" ["!SAVE"])) = Normal → k = 3%nat).
Proof.
  refine (session_history_grows (branch env0 callees0)
            ["help"; "mkfile " ++ long_name; "cwd"]
            (world_overlong "EINVAL" ["!SAVE"]) _).
  apply branch_keeps_history. intros h command w. reflexivity.
Defined.

(** X6. A line that starts with [mkfile] is handed to the handler with the
    parameter [_singleParam] takes from it and with no other argument.  When
    the target is new and the user types lines and the save command, the
    file holds the lines, the confirmation is printed, silenced or not, for
    no [-s] ever reaches the handler this way, and the raw line is
    recorded. *)
Theorem intCmds_mkfile_saves env cs command w ls save rest :
  let f := resolvePath env (_singleParam cs command "mkfile") [] in
  startsWith command "mkfile" = true →
  paramUndefined env f = false → pathUNC env f = false → files w !! f = None →
  lines w = (ls ++ save :: rest)%list →
  Forall (λ l, plain l = true) ls → toUpperCase save = "!SAVE" →
  fault w (writeFileSync f (join nl ls)) = None →
  let r := intCmds (branch env cs) command false w in
  fst r = Normal ∧
  files (snd r) = <[f:=join nl ls]> (files w) ∧
  calls (snd r) = (calls w ++ [writeFileSync f (join nl ls)])%list ∧
  out (snd r)
  = (out w ++ [Log banner; Success ("Successfully made the file " ++ f ++ ".")])%list ∧
  history (snd r) = (history w ++ [command])%list.
Proof.
  intros f Hm Hp Hu Hf Hl Hls Hs Hw r. subst r.
  rewrite intCmds_dispatch_spec. unfold dispatch_spec.
  apply startsWith_spec in Hm as [tail ->].
  rewrite (commandTable_keyword "mkfile" cmd_mkfile tail)
    by (unfold commandTable; simpl; tauto).
  cbn [branch]. unfold seq, call.
  rewrite (mkfile_reaches_save env _ [] w ls save rest Hp Hu Hf Hl Hls Hs).
  fold f. unfold try_catch.
  rewrite save_and_return_ok by exact Hw.
  cbn. rewrite <- app_assoc. repeat split.
Qed.

Lemma intCmds_mkfile_saves_witness :
  fst (intCmds (branch env0 callees0) "mkfile notes.txt -s" false
         (world_typing ["alpha"; "beta"; "!save"])) = Normal ∧
  files (snd (intCmds (branch env0 callees0) "mkfile notes.txt -s" false
                (world_typing ["alpha"; "beta"; "!save"])))
  = <[("notes.txt -s"):=("alpha" ++ nl ++ "beta")]> ∅ ∧
  calls (snd (intCmds (branch env0 callees0) "mkfile notes.txt -s" false
                (world_typing ["alpha"; "beta"; "!save"])))
  = [writeFileSync "notes.txt -s" ("alpha" ++ nl ++ "beta")] ∧
  out (snd (intCmds (branch env0 callees0) "mkfile notes.txt -s" false
              (world_typing ["alpha"; "beta"; "!save"])))
  = [Log banner; Success "Successfully made the file notes.txt -s."] ∧
  history (snd (intCmds (branch env0 callees0) "mkfile notes.txt -s" false
                  (world_typing ["alpha"; "beta"; "!save"])))
  = ["mkfile notes.txt -s"].
Proof.
  refine (intCmds_mkfile_saves env0 callees0 "mkfile notes.txt -s"
            (world_typing ["alpha"; "beta"; "!save"])
            ["alpha"; "beta"] "!save" [] _ _ _ _ _ _ _ _).
  - reflexivity.
  - reflexivity.
  - reflexivity.
  - reflexivity.
  - reflexivity.
  - repeat constructor.
  - reflexivity.
  - reflexivity.
Defined.

(** ** The arguments of [sysinfo] and [rename] *)

Lemma str_includes_start (s sub : string) :
  startsWith s sub = true → str_includes s sub = true.
Proof. intros H. destruct s; cbn [str_includes]; rewrite H; reflexivity. Qed.

Lemma str_includes_app (pre sub post : string) :
  str_includes (pre ++ sub ++ post) sub = true.
Proof.
  induction pre as [|c pre IH].
  - change (str_includes (sub ++ post) sub = true).
    apply str_includes_start, startsWith_app.
  - change (str_includes (String c (pre ++ sub ++ post)) sub = true).
    cbn [str_includes]. rewrite IH. apply orb_true_r.
Qed.

Lemma str_includes_spec (s sub : string) :
  str_includes s sub = true ↔ ∃ pre post, s = pre ++ sub ++ post.
Proof.
  split.
  - induction s as [|c s IH]; cbn [str_includes]; intros H.
    + rewrite orb_false_r in H. apply startsWith_spec in H as [post ->].
      exists "", post. reflexivity.
    + apply orb_true_iff in H as [H|H].
      * apply startsWith_spec in H as [post ->]. exists "", post. reflexivity.
      * destruct (IH H) as (pre & post & ->). exists (String c pre), post.
        reflexivity.
  - intros (pre & post & ->). apply str_includes_app.
Qed.

(** X7. The flag of [sysinfo] is looked for anywhere in the line, not as a
    word of its own: the call is [sysinfo(true)] exactly when the two
    characters [-a] stand somewhere in the line, as they do in
    [sysinfo --all]. *)
Theorem sysinfo_all_anywhere :
  (∀ command,
     sysinfo_all command = true ↔ ∃ pre post, command = pre ++ "-a" ++ post) ∧
  (∀ pre post, sysinfo_all (pre ++ "-a" ++ post) = true) ∧
  sysinfo_all "sysinfo --all" = true ∧ sysinfo_all "sysinfo -A" = false.
Proof.
  split; [|split; [|split]].
  - intros command. apply str_includes_spec.
  - intros pre post. apply str_includes_app.
  - reflexivity.
  - reflexivity.
Qed.

Lemma no_space_cons (c : ascii) (s : string) :
  no_space (String c s) = true → Ascii.eqb c " " = false ∧ no_space s = true.
Proof.
  unfold no_space. cbn [str_includes startsWith]. intros H.
  apply negb_true_iff, orb_false_iff in H as [Hc Hs].
  rewrite andb_true_r in Hc. rewrite Ascii.eqb_sym in Hc.
  split; [exact Hc|]. rewrite Hs. reflexivity.
Qed.

Lemma split_space_nonempty (s : string) : split_space s ≠ [].
Proof.
  destruct s as [|c s]; cbn; [discriminate|].
  destruct (Ascii.eqb c " "); [discriminate|].
  destruct (split_space s); discriminate.
Qed.

(** A word without a space is a token of its own. *)
Lemma split_space_word (a s : string) :
  no_space a = true →
  split_space a = [a] ∧ split_space (a ++ " " ++ s) = a :: split_space s.
Proof.
  induction a as [|c a IH]; intros H.
  - split; reflexivity.
  - apply no_space_cons in H as [Hc Ha]. destruct (IH Ha) as [IH1 IH2].
    split.
    + cbn [split_space]. rewrite Hc, IH1. reflexivity.
    + change (String c a ++ " " ++ s) with (String c (a ++ " " ++ s)).
      cbn [split_space]. rewrite Hc, IH2. reflexivity.
Qed.

(** X8. The branch of [rename] cuts the line at every single space and hands
    over the second and the third piece: the two names after the keyword
    when each is one word, whatever follows them; a name that is missing is
    [undefined]. *)
Theorem rename_params_tokens (kw a b rest : string) :
  no_space kw = true → no_space a = true → no_space b = true →
  rename_params (kw ++ " " ++ a ++ " " ++ b) = (Some a, Some b) ∧
  rename_params (kw ++ " " ++ a ++ " " ++ b ++ " " ++ rest) = (Some a, Some b) ∧
  rename_params (kw ++ " " ++ a) = (Some a, None) ∧
  rename_params kw = (None, None).
Proof.
  intros Hk Ha Hb. unfold rename_params.
  destruct (split_space_word kw (a ++ " " ++ b) Hk) as [Hk1 Hk2].
  destruct (split_space_word kw (a ++ " " ++ b ++ " " ++ rest) Hk) as [_ Hk3].
  destruct (split_space_word kw a Hk) as [_ Hk4].
  destruct (split_space_word a b Ha) as [Ha1 Ha2].
  destruct (split_space_word a (b ++ " " ++ rest) Ha) as [_ Ha3].
  destruct (split_space_word b rest Hb) as [Hb1 Hb2].
  rewrite Hk2, Hk3, Hk4, Hk1, Ha2, Ha3, Ha1, Hb2, Hb1.
  repeat split.
Qed.

Lemma rename_params_tokens_witness :
  rename_params "rename old.txt new.txt" = (Some "old.txt", Some "new.txt") ∧
  rename_params "rename old.txt new.txt and more" = (Some "old.txt", Some "new.txt") ∧
  rename_params "rename old.txt" = (Some "old.txt", None) ∧
  rename_params "rename" = (None, None).
Proof.
  refine (rename_params_tokens "rename" "old.txt" "new.txt" "and more" _ _ _);
    reflexivity.
Defined.

(** ** The command [about] *)

Lemma includes_In (a : list string) (x : string) : includes a x = true ↔ In x a.
Proof.
  unfold includes. rewrite existsb_exists. split.
  - intros (y & Hin & Heq). apply String.eqb_eq in Heq. subst y. exact Hin.
  - intros Hin. exists x. split; [exact Hin|apply String.eqb_refl].
Qed.

Lemma includes_same (a b : list string) (x : string) :
  (In x a ↔ In x b) → includes a x = includes b x.
Proof.
  intros H. destruct (includes a x) eqn:Ha, (includes b x) eqn:Hb; try reflexivity.
  - apply includes_In, H, includes_In in Ha. congruence.
  - apply includes_In, H, includes_In in Hb. congruence.
Qed.

Lemma console_log_seq (text : string) (s : Stmt) (w : World) :
  (console_log text ;; s) w = s (print (Log text) w).
Proof. reflexivity. Qed.

Lemma print_after (o : Output) (p : list Output) (w : World) :
  print o (set_out (out w ++ p) w) = set_out (out w ++ (p ++ [o])) w.
Proof. unfold print, set_out. cbn. rewrite <- app_assoc. reflexivity. Qed.

(** X9. [about] always comes back and changes nothing but what is printed.
    It prints seven entries, or eight when [-l] or [/l] is among the
    parameters: the licence then comes fifth, before the three links. *)
Theorem about_prints (c : AboutConsts) (params : list string) (w : World) :
  let licence := includes params "-l" || includes params "/l" in
  let name := if includes params "--ilovetech" || includes params "/ilovetech"
              then binaryName else GLOBAL_NAME c in
  ∃ printed,
    about c params w = (Normal, set_out (out w ++ printed) w) ∧
    length printed = (if licence then 8 else 7)%nat ∧
    printed !! 0%nat = Some (Log ("About " ++ name ++ nl)) ∧
    printed !! 4%nat
    = Some (if licence then Log (licenseText (fullYear c) name)
            else Log "GitHub: https://github.com/Bubble-OS/bubbleos") ∧
    last printed = Some (Log ("YouTube: https://youtube.com/InfiniTech78" ++ nl)).
Proof.
  intros licence name. unfold about. fold licence. fold name.
  rewrite !console_log_seq.
  change (print (Log ("About " ++ name ++ nl)) w)
    with (set_out (out w ++ [Log ("About " ++ name ++ nl)]) w).
  rewrite !print_after.
  destruct licence.
  - change (when true ?s) with s. rewrite !console_log_seq, !print_after.
    unfold console_log, emit. rewrite print_after.
    eexists. split; [reflexivity|]. repeat split.
  - change (when false ?s) with skip.
    change ((skip ;; ?s) ?v) with (s v).
    rewrite !console_log_seq, !print_after.
    unfold console_log, emit. rewrite print_after.
    eexists. split; [reflexivity|]. repeat split.
Qed.

(** X10. Only the four flags count: two lists of parameters that hold the
    same ones of them print the same, in whatever order and next to whatever
    else.  With [--ilovetech] or [/ilovetech] the name of the constants is
    not printed from: runs with different names print the same. *)
Theorem about_flags_only (c : AboutConsts) (params params' : list string) (w : World) :
  (∀ flag, In flag ["-l"; "/l"; "--ilovetech"; "/ilovetech"] →
           (In flag params ↔ In flag params')) →
  about c params w = about c params' w ∧
  (In "--ilovetech" params ∨ In "/ilovetech" params →
   ∀ name, about (mkAboutConsts name (AUTHOR c) (VERSION c) (BUILD c) (fullYear c))
             params w
           = about c params w).
Proof.
  intros H. split.
  - unfold about.
    rewrite (includes_same params params' "-l") by (apply H; cbn; tauto).
    rewrite (includes_same params params' "/l") by (apply H; cbn; tauto).
    rewrite (includes_same params params' "--ilovetech") by (apply H; cbn; tauto).
    rewrite (includes_same params params' "/ilovetech") by (apply H; cbn; tauto).
    reflexivity.
  - intros Hb name. unfold about.
    assert (Hbin : includes params "--ilovetech" || includes params "/ilovetech" = true).
    { apply orb_true_iff. destruct Hb as [Hb|Hb]; [left|right];
        apply includes_In; exact Hb. }
    rewrite Hbin. reflexivity.
Qed.

Lemma about_flags_only_witness :
  (∀ flag, In flag ["-l"; "/l"; "--ilovetech"; "/ilovetech"] →
           (In flag ["--ilovetech"; "-l"] ↔ In flag ["-l"; "-x"; "--ilovetech"; "-l"])) ∧
  about consts0 ["--ilovetech"; "-l"] world0
  = about consts0 ["-l"; "-x"; "--ilovetech"; "-l"] world0 ∧
  (In "--ilovetech" ["--ilovetech"; "-l"] ∨ In "/ilovetech" ["--ilovetech"; "-l"] →
   ∀ name, about (mkAboutConsts name (AUTHOR consts0) (VERSION consts0)
                    (BUILD consts0) (fullYear consts0))
             ["--ilovetech"; "-l"] world0
           = about consts0 ["--ilovetech"; "-l"] world0).
Proof.
  assert (H : ∀ flag, In flag ["-l"; "/l"; "--ilovetech"; "/ilovetech"] →
                (In flag ["--ilovetech"; "-l"]
                 ↔ In flag ["-l"; "-x"; "--ilovetech"; "-l"])).
  { intros flag Hin. cbn in Hin.
    destruct Hin as [<-|[<-|[<-|[<-|[]]]]]; cbn; split; intros Hx;
      repeat (destruct Hx as [Hx|Hx]; [try discriminate Hx; tauto|]);
      try destruct Hx. }
  split; [exact H|].
  exact (about_flags_only consts0 ["--ilovetech"; "-l"]
           ["-l"; "-x"; "--ilovetech"; "-l"] world0 H).
Defined.

(** ** What [mkfile] does to the disk and what it prints *)

Lemma loop_effect_later f w w' r :
  files w' = files w → calls w' = calls w →
  (∃ p, out w' = (out w ++ p)%list ∧ forallb quiet p = true) →
  loop_effect f w' r → loop_effect f w r.
Proof.
  intros Hf Hc (p & Ho & Hq) [(p' & Ho' & Hq') H]. split.
  - exists (p ++ p')%list. rewrite Ho', Ho, <- app_assoc, forallb_app, Hq, Hq'.
    split; reflexivity.
  - rewrite Hf, Hc in H. exact H.
Qed.

Lemma editLoop_effect f silent n :
  ∀ stdin contents w, (length stdin ≤ n)%nat →
    loop_effect f w (editLoop f silent contents stdin w).
Proof.
  assert (Hstay : ∀ c w w', out w' = out w → calls w' = calls w →
                    files w' = files w → loop_effect f w (c, w')).
  { intros c w w' Ho Hc Hf. split.
    - exists []. split; [rewrite app_nil_r; exact Ho|reflexivity].
    - left. split; [exact Hc|exact Hf]. }
  induction n as [|n IH]; intros [|input stdin] contents w Hn; simpl in Hn;
    try lia; try (apply Hstay; reflexivity).
  cbn [editLoop]. unfold seq at 1, taken. cbv beta iota.
  destruct (String.eqb (toUpperCase input) "!SAVE").
  { unfold seq, fs_writeFileSync. cbn [fault set_lines].
    destruct (fault w (writeFileSync f (join nl contents))) as [c|] eqn:Hw.
    - split; [exists []; split; [cbn; rewrite app_nil_r; reflexivity|reflexivity]|].
      right. exists (join nl contents). split; [reflexivity|right; reflexivity].
    - destruct silent; cbn.
      + split; [exists [Log ""]; split; reflexivity|].
        right. exists (join nl contents). split; [reflexivity|left; reflexivity].
      + split; [eexists [Success _]; split; reflexivity|].
        right. exists (join nl contents). split; [reflexivity|left; reflexivity]. }
  destruct (String.eqb (toUpperCase input) "!CANCEL").
  { split; [eexists [Log _]; split; reflexivity|]. left. split; reflexivity. }
  destruct (String.eqb (toUpperCase input) "!EDIT").
  - destruct (length contents =? 0)%nat.
    { apply (loop_effect_later f w (print (Log ("No previous input to edit." ++ nl))
                                      (set_lines stdin w)));
        [reflexivity|reflexivity|eexists [Log _]; split; reflexivity|].
      apply IH. lia. }
    unfold questionInt. cbn [ints set_lines].
    destruct (ints w) as [|k ks]; [apply Hstay; reflexivity|].
    destruct ((1 <=? k) && (k <=? Z.of_nat (length contents))).
    + destruct stdin as [|newLine stdin]; [apply Hstay; reflexivity|].
      apply (loop_effect_later f w
               (print (Log ("Line " ++ pretty k ++ " has been updated." ++ nl))
                  (set_lines stdin (set_ints ks w))));
        [reflexivity|reflexivity|eexists [Log _]; split; reflexivity|].
      apply IH. simpl in Hn. lia.
    + apply (loop_effect_later f w (print (Log ("Invalid line number." ++ nl))
                                      (set_ints ks (set_lines stdin w))));
        [reflexivity|reflexivity|eexists [Log _]; split; reflexivity|].
      apply IH. lia.
  - apply (loop_effect_later f w (set_lines stdin w));
      [reflexivity|reflexivity|
       exists []; split; [cbn; rewrite app_nil_r; reflexivity|reflexivity]|].
    apply IH. lia.
Qed.

(** From the check of the UNC path on, in the world [w']. *)
Lemma mkfile_tail_effect env f silent w' :
  let r := (when (pathUNC env f) (report invalidUNCPath ;; ret) ;;
            console_log banner ;; editor f silent) w' in
  one_report w' r ∧
  ((calls (snd r) = calls w' ∧ files (snd r) = files w') ∨
   ∃ d, calls (snd r) = (calls w' ++ [writeFileSync f d])%list ∧
        (files (snd r) = <[f:=d]> (files w') ∨ files (snd r) = files w')).
Proof.
  unfold seq, when. destruct (pathUNC env f); cbn.
  - split; [|left; split; reflexivity].
    exists [Error invalidUNCPath]. split; [reflexivity|]. right.
    exists [], (Error invalidUNCPath). repeat split. left. reflexivity.
  - unfold editor.
    destruct (editLoop_effect f silent _ (lines w') [] (print (Log banner) w')
                (Nat.le_refl _)) as [(p & Ho & Hq) H].
    cbn [out calls files print set_out] in Ho, H.
    split; [|exact H].
    exists (Log banner :: p). split.
    + rewrite Ho, <- app_assoc. reflexivity.
    + left. exact Hq.
Qed.

Lemma mkfile_catch_effect f err w :
  calls (snd (mkfile_catch f err w)) = calls w ∧
  files (snd (mkfile_catch f err w)) = files w ∧
  ((fst (mkfile_catch f err w) = Throw (ReferenceError "dir") ∧
    out (snd (mkfile_catch f err w)) = out w) ∨
   ∃ o, quiet o = false ∧ out (snd (mkfile_catch f err w)) = (out w ++ [o])%list ∧
        (fst (mkfile_catch f err w) = Return ∨ fst (mkfile_catch f err w) = Normal)).
Proof.
  unfold mkfile_catch.
  destruct (code_is err "ENOENT").
  { cbn. split; [reflexivity|split; [reflexivity|]]. right.
    exists (Error (doesNotExist "file" f)). repeat split. left. reflexivity. }
  destruct (code_is err "EPERM").
  { cbn. split; [reflexivity|split; [reflexivity|]]. right.
    exists (Error (noPermissions "make the file" f)). repeat split. left. reflexivity. }
  destruct (code_is err "ENAMETOOLONG").
  { cbn. split; [reflexivity|split; [reflexivity|]]. right.
    exists (Error (pathTooLong f)). repeat split. left. reflexivity. }
  destruct (code_is err "EINVAL").
  - cbn. split; [reflexivity|split; [reflexivity|]]. left. split; reflexivity.
  - cbn. split; [reflexivity|split; [reflexivity|]]. right.
    exists (Fatal err). repeat split. right. reflexivity.
Qed.

(** The [try] block: the calls it makes, and what it prints. *)
Lemma mkfile_try_effect env f silent w :
  target_only f w (mkfile_try env f silent w) ∧
  one_report w (mkfile_try env f silent w).
Proof.
  pattern (mkfile_try env f silent w).
  set (P := λ r : Completion * World, target_only f w r ∧ one_report w r).
  assert (Hnil : ∀ c w', out w' = out w → calls w' = calls w →
                   files w' = files w → P (c, w')).
  { intros c w' Ho Hc Hf. split.
    - exists []. split; [rewrite app_nil_r; exact Hc|]. left.
      split; [reflexivity|exact Hf].
    - exists []. split; [rewrite app_nil_r; exact Ho|]. left. reflexivity. }
  assert (Htail : P ((when (pathUNC env f) (report invalidUNCPath ;; ret) ;;
                      console_log banner ;; editor f silent) w)).
  { destruct (mkfile_tail_effect env f silent w) as [Hr Hc].
    split; [|exact Hr].
    destruct Hc as [[Hc Hf]|(d & Hc & Hf)].
    - exists []. split; [rewrite Hc; symmetry; apply app_nil_r|].
      left. split; [reflexivity|exact Hf].
    - exists [writeFileSync f d]. split; [exact Hc|].
      right; right; left. exists d. split; [reflexivity|exact Hf]. }
  assert (Hdel : ∀ ys, P ((when (pathUNC env f) (report invalidUNCPath ;; ret) ;;
                           console_log banner ;; editor f silent) (deleted f ys w))).
  { intros ys.
    destruct (mkfile_tail_effect env f silent (deleted f ys w))
      as [(p & Ho & Hp) Hc].
    cbn [out calls files deleted print set_out set_files set_calls set_yesno]
      in Ho, Hc.
    split.
    - destruct Hc as [[Hc Hf]|(d & Hc & Hf)].
      + exists [rmSync f]. split; [exact Hc|]. right; left.
        split; [reflexivity|left; exact Hf].
      + exists [rmSync f; writeFileSync f d].
        split; [rewrite Hc, <- app_assoc; reflexivity|].
        right; right; right. exists d. split; [reflexivity|exact Hf].
    - exists (Success ("Successfully deleted " ++ f ++ ".") :: p).
      split; [rewrite Ho, <- app_assoc; reflexivity|].
      destruct Hp as [Hp|(q & o & -> & Hq & Ho' & Hend)]; [left; exact Hp|].
      right. exists (Success ("Successfully deleted " ++ f ++ ".") :: q), o.
      repeat split; assumption. }
  unfold mkfile_try.
  unfold seq at 1, when at 1.
  destruct (paramUndefined env f); cbn -[P].
  { split.
    - exists []. split; [symmetry; apply app_nil_r|]. left. split; reflexivity.
    - eexists [Error _]. split; [reflexivity|]. right.
      eexists [], (Error _). repeat split. left. reflexivity. }
  unfold seq at 1, doesExist, when at 1.
  destruct (bool_decide (is_Some (files w !! f))); [|exact Htail].
  unfold _promptForYN.
  destruct (yesno w) as [|[|] ys]; cbn -[P].
  - apply Hnil; reflexivity.
  - unfold try_catch, seq at 1, fs_rmSync. cbn [fault set_yesno].
    destruct (fault w (rmSync f)).
    + cbn -[P]. split.
      * exists [rmSync f]. split; [reflexivity|]. right; left.
        split; [reflexivity|right; reflexivity].
      * exists []. split; [symmetry; apply app_nil_r|]. left. reflexivity.
    + exact (Hdel ys).
  - split.
    + exists []. split; [symmetry; apply app_nil_r|]. left. split; reflexivity.
    + eexists [Log _]. split; [reflexivity|]. left. reflexivity.
Qed.

Lemma mkfile_effect env file args w :
  let f := resolvePath env file args in
  target_only f w (mkfile env file args w) ∧ one_report w (mkfile env file args w).
Proof.
  intros f. unfold mkfile. fold f.
  destruct (mkfile_try_effect env f (includes args "-s") w) as [Ht Hr].
  unfold try_catch.
  destruct (mkfile_try env f (includes args "-s") w) as [[| |e| |] w1];
    try (split; [exact Ht|exact Hr]).
  destruct (mkfile_catch_effect f e w1) as (Hc & Hf & Ho).
  split.
  - destruct Ht as (made & Hm & Hcases). exists made.
    rewrite Hc, Hf. split; [exact Hm|exact Hcases].
  - destruct Hr as (p & Hp & Hq). cbn [fst snd] in Hp, Hq.
    assert (Hquiet : forallb quiet p = true).
    { destruct Hq as [Hq|(q & o & _ & _ & _ & [Hend|Hend])];
        [exact Hq|discriminate Hend|discriminate Hend]. }
    destruct Ho as [[_ Ho]|(o & Hloud & Ho & Hend)].
    + exists p. split; [rewrite Ho; exact Hp|left; exact Hquiet].
    + exists (p ++ [o])%list. split; [rewrite Ho, Hp, <- app_assoc; reflexivity|].
      right. exists p, o. repeat split; assumption.
Qed.

(** The deletion is not called unless the user has said yes: in a world in
    which the next answer is not a yes, the only call of the [try] block is
    the write. *)
Lemma mkfile_try_asks_first env f silent w :
  (∀ ys, yesno w ≠ true :: ys) →
  calls (snd (mkfile_try env f silent w)) = calls w ∨
  ∃ d, calls (snd (mkfile_try env f silent w)) = (calls w ++ [writeFileSync f d])%list.
Proof.
  intros Hno.
  pattern (mkfile_try env f silent w).
  set (P := λ r : Completion * World,
         calls (snd r) = calls w ∨
         ∃ d, calls (snd r) = (calls w ++ [writeFileSync f d])%list).
  assert (Htail : P ((when (pathUNC env f) (report invalidUNCPath ;; ret) ;;
                      console_log banner ;; editor f silent) w)).
  { destruct (mkfile_tail_effect env f silent w) as [_ [[Hc _]|(d & Hc & _)]].
    - left. exact Hc.
    - right. exists d. exact Hc. }
  unfold mkfile_try.
  unfold seq at 1, when at 1.
  destruct (paramUndefined env f); cbn -[P].
  { left. reflexivity. }
  unfold seq at 1, doesExist, when at 1.
  destruct (bool_decide (is_Some (files w !! f))); [|exact Htail].
  unfold _promptForYN.
  destruct (yesno w) as [|[|] ys] eqn:Hy; cbn -[P].
  - left. reflexivity.
  - destruct (Hno ys eq_refl).
  - left. reflexivity.
Qed.

Lemma mkfile_asks_first env file args w :
  let f := resolvePath env file args in
  (∀ ys, yesno w ≠ true :: ys) →
  calls (snd (mkfile env file args w)) = calls w ∨
  ∃ d, calls (snd (mkfile env file args w)) = (calls w ++ [writeFileSync f d])%list.
Proof.
  intros f Hno. unfold mkfile. fold f. unfold try_catch.
  pose proof (mkfile_try_asks_first env f (includes args "-s") w Hno) as Htry.
  destruct (mkfile_try env f (includes args "-s") w) as [[| |e| |] w1];
    try exact Htry.
  destruct (mkfile_catch_effect f e w1) as (Hc & _ & _). rewrite Hc. exact Htry.
Qed.

(** A run in which the deletion was called has started with a yes. *)
Lemma mkfile_rm_after_yes env file args w made :
  let f := resolvePath env file args in
  calls (snd (mkfile env file args w)) = (calls w ++ made)%list →
  In (rmSync f) made → ∃ ys, yesno w = true :: ys.
Proof.
  intros f Hm Hin.
  destruct (yesno w) as [|[|] ys] eqn:Hy; [exfalso|exists ys; reflexivity|exfalso].
  all: destruct (mkfile_asks_first env file args w) as [Hc|(d & Hc)];
    [intros ys'; rewrite Hy; discriminate| |].
  all: fold f in Hc; rewrite Hc in Hm.
  all: try (assert (Hnil : (calls w ++ [])%list = (calls w ++ made)%list)
              by (rewrite app_nil_r; exact Hm);
            apply List.app_inv_head in Hnil; subst made; destruct Hin).
  all: apply List.app_inv_head in Hm; subst made;
    destruct Hin as [Hin|[]]; discriminate Hin.
Qed.

(** X11. A run of [mkfile] makes at most two calls of the file system, the
    deletion and then the write, each at most once and both with the path of
    the target: no other path is ever handed to the file system.  The
    deletion is only called after the user has said yes, and a run that has
    made no call has left the disk as it was. *)
Theorem mkfile_touches_target_only env file args w :
  let f := resolvePath env file args in
  ∃ made,
    calls (snd (mkfile env file args w)) = (calls w ++ made)%list ∧
    (made = [] ∨ made = [rmSync f] ∨ (∃ d, made = [writeFileSync f d]) ∨
     ∃ d, made = [rmSync f; writeFileSync f d]) ∧
    (In (rmSync f) made → ∃ ys, yesno w = true :: ys) ∧
    (made = [] → files (snd (mkfile env file args w)) = files w).
Proof.
  intros f. destruct (mkfile_effect env file args w) as [Ht _]. fold f in Ht.
  destruct Ht as (made & Hm & Hcases). exists made.
  split; [exact Hm|]. split; [|split].
  - destruct Hcases as [[-> _]|[[-> _]|[(d & -> & _)|(d & -> & _)]]];
      [left; reflexivity|right; left; reflexivity|
       right; right; left; exists d; reflexivity|
       right; right; right; exists d; reflexivity].
  - exact (mkfile_rm_after_yes env file args w made Hm).
  - intros ->.
    destruct Hcases as [[_ Hf]|[[H _]|[(d & H & _)|(d & H & _)]]];
      [exact Hf|discriminate H|discriminate H|discriminate H].
Qed.

(** X12. A run of [mkfile] prints at most one error or fatal report, and
    nothing after it: the report is the last entry and the run has ended
    normally.  A run that an exception leaves has printed no report. *)
Theorem mkfile_reports_once env file args w :
  one_report w (mkfile env file args w) ∧
  (∀ err, fst (mkfile env file args w) = Throw err →
    ∃ printed, out (snd (mkfile env file args w)) = (out w ++ printed)%list ∧
               forallb quiet printed = true).
Proof.
  destruct (mkfile_effect env file args w) as [_ Hr]. split; [exact Hr|].
  intros err Herr. destruct Hr as (p & Hp & Hq). exists p. split; [exact Hp|].
  destruct Hq as [Hq|(q & o & _ & _ & _ & [Hend|Hend])];
    [exact Hq|congruence|congruence].
Qed.

(** ** The checks of [mkfile] before the editor *)

(** X13. Without a parameter [mkfile] asks the user to enter one, with the
    entry of code 2 and its example, and returns: it asks no question, reads
    no line and makes no call, whatever is on the disk. *)
Theorem mkfile_missing_parameter env file args w :
  paramUndefined env (resolvePath env file args) = true →
  mkfile env file args w
  = (Return, print (Error (enterParameter "a file" "mkfile test.txt")) w) ∧
  CODE (enterParameter "a file" "mkfile test.txt") = 2.
Proof.
  intros H. split; [|reflexivity].
  unfold mkfile, try_catch, mkfile_try, seq, when. rewrite H. reflexivity.
Qed.

Lemma mkfile_missing_parameter_witness :
  paramUndefined env1 (resolvePath env1 "" []) = true ∧
  mkfile env1 "" [] (world_with "" (λ _, None) [true] ["text"; "!save"])
  = (Return, print (Error (enterParameter "a file" "mkfile test.txt"))
               (world_with "" (λ _, None) [true] ["text"; "!save"])) ∧
  CODE (enterParameter "a file" "mkfile test.txt") = 2.
Proof.
  split; [reflexivity|].
  refine (mkfile_missing_parameter env1 "" []
            (world_with "" (λ _, None) [true] ["text"; "!save"]) _).
  reflexivity.
Defined.

(** X14. A UNC path is refused with the entry of code 15 before the editor
    starts, but only after the check of existence: when the path exists and
    the user agrees to the deletion, the file is deleted and then the path is
    refused, so the file is lost and nothing is created. *)
Theorem mkfile_UNC_path env file args w :
  let f := resolvePath env file args in
  paramUndefined env f = false → pathUNC env f = true →
  (files w !! f = None →
   mkfile env file args w = (Return, print (Error invalidUNCPath) w)) ∧
  (∀ content ys,
     files w !! f = Some content → yesno w = true :: ys →
     fault w (rmSync f) = None →
     mkfile env file args w
     = (Return, print (Error invalidUNCPath) (deleted f ys w)) ∧
     files (snd (mkfile env file args w)) !! f = None) ∧
  CODE invalidUNCPath = 15.
Proof.
  intros f Hp Hu. split; [|split; [|reflexivity]].
  - intros Hf. unfold mkfile. fold f.
    unfold try_catch, mkfile_try, seq, when, doesExist, skip.
    rewrite Hp. cbv beta iota. rewrite Hf.
    rewrite bool_decide_eq_false_2 by (intros [? ?]; discriminate).
    cbv beta iota. rewrite Hu. reflexivity.
  - intros content ys Hf Hy Hr.
    assert (H : mkfile env file args w
                = (Return, print (Error invalidUNCPath) (deleted f ys w))).
    { unfold mkfile. fold f.
      unfold try_catch at 1, mkfile_try, seq, when, doesExist, skip, _promptForYN.
      rewrite Hp. cbv beta iota. rewrite Hf.
      rewrite bool_decide_eq_true_2 by (eexists; reflexivity).
      rewrite Hy. unfold try_catch, fs_rmSync. cbn [fault set_yesno].
      rewrite Hr. cbn. rewrite Hu. reflexivity. }
    rewrite H. split; [reflexivity|]. cbn. apply lookup_delete_eq.
Qed.

Lemma mkfile_UNC_path_witness :
  (mkfile env1 share_path [] (world_typing ["text"; "!save"])
   = (Return, print (Error invalidUNCPath) (world_typing ["text"; "!save"]))) ∧
  (mkfile env1 share_path []
     (world_with share_path (λ _, None) [true] ["text"; "!save"])
   = (Return, print (Error invalidUNCPath)
                (deleted share_path []
                   (world_with share_path (λ _, None) [true] ["text"; "!save"]))) ∧
   files (snd (mkfile env1 share_path []
                 (world_with share_path (λ _, None) [true] ["text"; "!save"])))
     !! share_path = None).
Proof.
  split.
  - refine (proj1 (mkfile_UNC_path env1 share_path []
                     (world_typing ["text"; "!save"]) _ _) _); reflexivity.
  - refine (proj1 (proj2 (mkfile_UNC_path env1 share_path []
                            (world_with share_path (λ _, None) [true]
                               ["text"; "!save"]) _ _))
              "old text" [] _ _ _); reflexivity.
Defined.

(** ** Saving and not saving *)

Lemma editLoop_no_save f silent n :
  ∀ stdin contents w, (length stdin ≤ n)%nat →
    forallb not_save stdin = true →
    no_write w (editLoop f silent contents stdin w).
Proof.
  assert (Hstay : ∀ c w w', calls w' = calls w → files w' = files w →
                    c = Return ∨ c = Wait → no_write w (c, w')).
  { intros c w w' Hc Hf He. split; [exact Hc|split; [exact Hf|exact He]]. }
  induction n as [|n IH]; intros [|input stdin] contents w Hn Hs; simpl in Hn;
    try lia; try (apply Hstay; [reflexivity|reflexivity|right; reflexivity]).
  cbn [forallb] in Hs. apply andb_true_iff in Hs as [Hi Hs].
  unfold not_save in Hi. apply negb_true_iff in Hi.
  cbn [editLoop]. unfold seq at 1, taken. cbv beta iota. rewrite Hi.
  destruct (String.eqb (toUpperCase input) "!CANCEL").
  { apply Hstay; [reflexivity|reflexivity|left; reflexivity]. }
  destruct (String.eqb (toUpperCase input) "!EDIT").
  - destruct (length contents =? 0)%nat.
    { apply (IH stdin contents (print _ (set_lines stdin w))); [lia|exact Hs]. }
    unfold questionInt. cbn [ints set_lines].
    destruct (ints w) as [|k ks];
      [apply Hstay; [reflexivity|reflexivity|right; reflexivity]|].
    destruct ((1 <=? k) && (k <=? Z.of_nat (length contents))).
    + destruct stdin as [|newLine stdin];
        [apply Hstay; [reflexivity|reflexivity|right; reflexivity]|].
      cbn [forallb] in Hs. apply andb_true_iff in Hs as [_ Hs].
      apply (IH stdin _ (print _ (set_lines stdin (set_ints ks w))));
        [simpl in Hn; lia|exact Hs].
    + apply (IH stdin contents (print _ (set_ints ks (set_lines stdin w))));
        [lia|exact Hs].
  - apply (IH stdin _ (set_lines stdin w)); [lia|exact Hs].
Qed.

(** Without the save command the [try] block makes no call but the deletion,
    and the only exception that leaves it is the one of the clause around
    the deletion. *)
Lemma mkfile_try_without_save env f silent w :
  forallb not_save (lines w) = true →
  ((calls (snd (mkfile_try env f silent w)) = calls w ∧
    files (snd (mkfile_try env f silent w)) = files w) ∨
   calls (snd (mkfile_try env f silent w)) = (calls w ++ [rmSync f])%list) ∧
  (∀ err, fst (mkfile_try env f silent w) = Throw err → err = ReferenceError "err").
Proof.
  intros Hs.
  pattern (mkfile_try env f silent w).
  set (Q := λ r : Completion * World,
         ((calls (snd r) = calls w ∧ files (snd r) = files w) ∨
          calls (snd r) = (calls w ++ [rmSync f])%list) ∧
         (∀ err, fst r = Throw err → err = ReferenceError "err")).
  assert (Htail : ∀ w', lines w' = lines w →
            no_write w'
              ((when (pathUNC env f) (report invalidUNCPath ;; ret) ;;
                console_log banner ;; editor f silent) w')).
  { intros w' Hl. unfold seq, when.
    destruct (pathUNC env f); cbn;
      [split; [reflexivity|split; [reflexivity|left; reflexivity]]|].
    unfold editor. cbn [lines print set_out].
    apply (editLoop_no_save f silent _ (lines w') [] (print (Log banner) w')
             (Nat.le_refl _)).
    rewrite Hl. exact Hs. }
  assert (Hnew : Q ((when (pathUNC env f) (report invalidUNCPath ;; ret) ;;
                     console_log banner ;; editor f silent) w)).
  { destruct (Htail w eq_refl) as (Hc & Hf & He).
    split; [left; split; assumption|].
    intros err Herr. destruct He as [He|He]; congruence. }
  unfold mkfile_try.
  unfold seq at 1, when at 1.
  destruct (paramUndefined env f); cbn -[Q].
  { split; [left; split; reflexivity|discriminate]. }
  unfold seq at 1, doesExist, when at 1.
  destruct (bool_decide (is_Some (files w !! f))); [|exact Hnew].
  assert (Hdel : ∀ ys, Q ((when (pathUNC env f) (report invalidUNCPath ;; ret) ;;
                           console_log banner ;; editor f silent)
                            (deleted f ys w))).
  { intros ys. destruct (Htail (deleted f ys w) eq_refl) as (Hc & _ & He).
    cbn [calls deleted print set_out set_files set_calls set_yesno] in Hc.
    split; [right; exact Hc|].
    intros err Herr. destruct He as [He|He]; congruence. }
  unfold _promptForYN.
  destruct (yesno w) as [|[|] ys]; cbn -[Q].
  - split; [left; split; reflexivity|discriminate].
  - unfold try_catch, seq at 1, fs_rmSync. cbn [fault set_yesno].
    destruct (fault w (rmSync f)).
    + cbn -[Q]. split; [right; reflexivity|].
      intros err [= <-]. reflexivity.
    + exact (Hdel ys).
  - split; [left; split; reflexivity|discriminate].
Qed.

(** X15. Nothing is written without the save command: when what the user
    enters is ASCII text and no value given to the editor is the save
    command, in any case of letters, [mkfile] never calls [writeFileSync]
    and no exception leaves it.  The only call it can make is the deletion,
    after the user has said yes; without that call the disk is as it was. *)
Theorem mkfile_without_save env file args w :
  let f := resolvePath env file args in
  forallb isASCII (lines w) = true →
  forallb not_save (lines w) = true →
  let r := mkfile env file args w in
  ((calls (snd r) = calls w ∧ files (snd r) = files w) ∨
   (calls (snd r) = (calls w ++ [rmSync f])%list ∧ ∃ ys, yesno w = true :: ys)) ∧
  (∀ err, fst r ≠ Throw err).
Proof.
  intros f _ Hs r.
  assert (H : ((calls (snd r) = calls w ∧ files (snd r) = files w) ∨
               calls (snd r) = (calls w ++ [rmSync f])%list) ∧
              (∀ err, fst r ≠ Throw err)).
  { subst r. unfold mkfile. fold f.
    destruct (mkfile_try_without_save env f (includes args "-s") w Hs)
      as [Hcases Herr].
    unfold try_catch.
    destruct (mkfile_try env f (includes args "-s") w) as [[| |e| |] w1];
      cbn [fst snd] in *; try (split; [exact Hcases|discriminate]).
    rewrite (Herr e eq_refl). cbn. split; [exact Hcases|discriminate]. }
  destruct H as [[Hcases|Hrm] Hthrow]; (split; [|exact Hthrow]).
  - left. exact Hcases.
  - right. split; [exact Hrm|].
    apply (mkfile_rm_after_yes env file args w [rmSync f] Hrm).
    left. reflexivity.
Qed.

Lemma mkfile_without_save_witness :
  forallb isASCII ["alpha"; "!edit"; "beta"; "!cancel"] = true ∧
  forallb not_save ["alpha"; "!edit"; "beta"; "!cancel"] = true ∧
  forallb not_save ["alpha"; "!edit"; "beta"; "!cancel"; "!Save"] = false ∧
  ((calls (snd (mkfile env0 "notes.txt" []
                  (set_ints [1] (world_typing ["alpha"; "!edit"; "beta"; "!cancel"]))))
    = [] ∧
    files (snd (mkfile env0 "notes.txt" []
                  (set_ints [1] (world_typing ["alpha"; "!edit"; "beta"; "!cancel"]))))
    = ∅) ∨
   (calls (snd (mkfile env0 "notes.txt" []
                  (set_ints [1] (world_typing ["alpha"; "!edit"; "beta"; "!cancel"]))))
    = [rmSync "notes.txt"] ∧
    ∃ ys, [] = true :: ys)) ∧
  (∀ err,
     fst (mkfile env0 "notes.txt" []
            (set_ints [1] (world_typing ["alpha"; "!edit"; "beta"; "!cancel"])))
     ≠ Throw err).
Proof.
  split; [reflexivity|]. split; [reflexivity|]. split; [reflexivity|].
  exact (mkfile_without_save env0 "notes.txt" []
           (set_ints [1] (world_typing ["alpha"; "!edit"; "beta"; "!cancel"]))
           eq_refl eq_refl).
Defined.



(** The handler on a target that exists, when the user agrees to the
    deletion, the deletion goes through and the user types the lines [ls]
    and the save command. *)
Lemma mkfile_overwrite_reaches_save env file args w content ys ls save rest :
  let f := resolvePath env file args in
  paramUndefined env f = false → pathUNC env f = false →
  files w !! f = Some content → yesno w = true :: ys →
  fault w (rmSync f) = None →
  lines w = (ls ++ save :: rest)%list →
  Forall (λ l, plain l = true) ls → toUpperCase save = "!SAVE" →
  mkfile env file args w
  = try_catch (save_and_return f (includes args "-s") ls) (mkfile_catch f)
      (set_lines rest (print (Log banner) (deleted f ys w))).
Proof.
  intros f Hp Hu Hf Hy Hr Hl Hls Hs.
  unfold mkfile. fold f. unfold try_catch at 1.
  rewrite (mkfile_try_overwrite env f _ w content ys Hp Hu Hf Hy Hr), Hl.
  rewrite <- (set_lines_id (print (Log banner) (deleted f ys w)) (ls ++ save :: rest))
    by exact Hl.
  rewrite (editLoop_typed _ _ _ _ _ _ Hls), (editLoop_save _ _ _ _ _ _ Hs).
  reflexivity.
Qed.

(** X17. Overwriting replaces the content: when the user agrees to the
    deletion and saves, and both calls go through, the file holds the new
    lines and nothing of the old content, as if it had been written over
    directly; the deletion and the creation are both confirmed. *)
Theorem mkfile_overwrite_replaces env file args w content ys ls save rest :
  let f := resolvePath env file args in
  paramUndefined env f = false → pathUNC env f = false →
  files w !! f = Some content → yesno w = true :: ys →
  fault w (rmSync f) = None →
  lines w = (ls ++ save :: rest)%list →
  Forall (λ l, plain l = true) ls → toUpperCase save = "!SAVE" →
  fault w (writeFileSync f (join nl ls)) = None →
  let r := mkfile env file args w in
  fst r = Return ∧
  files (snd r) = <[f:=join nl ls]> (files w) ∧
  files (snd r) !! f = Some (join nl ls) ∧
  calls (snd r) = (calls w ++ [rmSync f; writeFileSync f (join nl ls)])%list ∧
  out (snd r)
  = (out w ++ [Success ("Successfully deleted " ++ f ++ "."); Log banner;
               if includes args "-s" then Log ""
               else Success ("Successfully made the file " ++ f ++ ".")])%list.
Proof.
  intros f Hp Hu Hf Hy Hr Hl Hls Hs Hw r. subst r.
  rewrite (mkfile_overwrite_reaches_save env file args w content ys ls save rest
             Hp Hu Hf Hy Hr Hl Hls Hs).
  fold f. unfold try_catch.
  rewrite save_and_return_ok by exact Hw.
  cbn. rewrite <- !app_assoc.
  split; [reflexivity|]. split; [apply insert_delete_eq|].
  split; [apply lookup_insert_eq|]. split; reflexivity.
Qed.

Lemma mkfile_overwrite_replaces_witness :
  fst (mkfile env0 "notes.txt" []
         (world_with "notes.txt" (λ _, None) [true] ["new text"; "!save"])) = Return ∧
  files (snd (mkfile env0 "notes.txt" []
                (world_with "notes.txt" (λ _, None) [true] ["new text"; "!save"])))
  = <[("notes.txt"):="new text"]>
      {[ "notes.txt" := "old text"; "other.txt" := "other text" ]} ∧
  files (snd (mkfile env0 "notes.txt" []
                (world_with "notes.txt" (λ _, None) [true] ["new text"; "!save"])))
    !! "notes.txt" = Some "new text" ∧
  calls (snd (mkfile env0 "notes.txt" []
                (world_with "notes.txt" (λ _, None) [true] ["new text"; "!save"])))
  = [rmSync "notes.txt"; writeFileSync "notes.txt" "new text"] ∧
  out (snd (mkfile env0 "notes.txt" []
              (world_with "notes.txt" (λ _, None) [true] ["new text"; "!save"])))
  = [Success "Successfully deleted notes.txt."; Log banner;
     Success "Successfully made the file notes.txt."].
Proof.
  refine (mkfile_overwrite_replaces env0 "notes.txt" []
            (world_with "notes.txt" (λ _, None) [true] ["new text"; "!save"])
            "old text" [] ["new text"] "!save" [] _ _ _ _ _ _ _ _ _).
  - reflexivity.
  - reflexivity.
  - vm_compute. reflexivity.
  - reflexivity.
  - reflexivity.
  - reflexivity.
  - repeat constructor.
  - reflexivity.
  - reflexivity.
Defined.

(** X18. When the write fails after the user agreed to the deletion, the
    deletion has been made and confirmed and nothing is called after the
    write: the calls are the deletion and then the write, and the terminal
    shows the confirmation of the deletion, the banner of the editor and
    then what the handler makes of the failure, for the codes it names the
    entry that the file does not exist, that the permission is missing or
    that the path is too long, of a file the user has just had deleted. *)
Theorem mkfile_overwrite_failed_write env file args w content ys ls save rest c :
  let f := resolvePath env file args in
  paramUndefined env f = false → pathUNC env f = false →
  files w !! f = Some content → yesno w = true :: ys →
  fault w (rmSync f) = None →
  lines w = (ls ++ save :: rest)%list →
  Forall (λ l, plain l = true) ls → toUpperCase save = "!SAVE" →
  fault w (writeFileSync f (join nl ls)) = Some c →
  let r := mkfile env file args w in
  calls (snd r) = (calls w ++ [rmSync f; writeFileSync f (join nl ls)])%list ∧
  out (snd r)
  = (out w ++ [Success ("Successfully deleted " ++ f ++ "."); Log banner]
     ++ (if String.eqb c "ENOENT" then [Error (doesNotExist "file" f)]
         else if String.eqb c "EPERM" then [Error (noPermissions "make the file" f)]
         else if String.eqb c "ENAMETOOLONG" then [Error (pathTooLong f)]
         else if String.eqb c "EINVAL" then []
         else [Fatal (SystemError c)]))%list ∧
  fst r = (if String.eqb c "ENOENT" || String.eqb c "EPERM"
              || String.eqb c "ENAMETOOLONG" then Return
           else if String.eqb c "EINVAL" then Throw (ReferenceError "dir")
           else Normal).
Proof.
  intros f Hp Hu Hf Hy Hr Hl Hls Hs Hw r. subst r.
  rewrite (mkfile_overwrite_reaches_save env file args w content ys ls save rest
             Hp Hu Hf Hy Hr Hl Hls Hs).
  fold f. unfold try_catch.
  rewrite (save_and_return_fails _ _ _ _ c) by exact Hw.
  unfold mkfile_catch, code_is. cbn [code].
  destruct (String.eqb c "ENOENT");
    [|destruct (String.eqb c "EPERM");
      [|destruct (String.eqb c "ENAMETOOLONG");
        [|destruct (String.eqb c "EINVAL")]]];
    cbn; rewrite <- ?app_assoc; repeat split.
Qed.

Lemma mkfile_overwrite_failed_write_witness :
  calls (snd (mkfile env0 "notes.txt" []
                (world_with "notes.txt" (refuses_write "EPERM") [true]
                   ["new text"; "!save"])))
  = [rmSync "notes.txt"; writeFileSync "notes.txt" "new text"] ∧
  out (snd (mkfile env0 "notes.txt" []
              (world_with "notes.txt" (refuses_write "EPERM") [true]
                 ["new text"; "!save"])))
  = [Success "Successfully deleted notes.txt."; Log banner;
     Error (noPermissions "make the file" "notes.txt")] ∧
  fst (mkfile env0 "notes.txt" []
         (world_with "notes.txt" (refuses_write "EPERM") [true]
            ["new text"; "!save"]))
  = Return.
Proof.
  refine (mkfile_overwrite_failed_write env0 "notes.txt" []
            (world_with "notes.txt" (refuses_write "EPERM") [true]
               ["new text"; "!save"])
            "old text" [] ["new text"] "!save" [] "EPERM" _ _ _ _ _ _ _ _ _).
  - reflexivity.
  - reflexivity.
  - vm_compute. reflexivity.
  - reflexivity.
  - reflexivity.
  - reflexivity.
  - repeat constructor.
  - reflexivity.
  - reflexivity.
Defined.
